(** * rollup-plugin-overture: the markdown-to-draw() transform of src/index.js

    A shallow embedding of the core of the plugin's [load] hook: the
    brace scanner [findExpression], the splitter [handleExpressions],
    the attribute lowering [parseProperties], the [handlers] table with
    [toDraw], and the three passes [load] runs on the parsed document
    (script extraction, the 'overture/dom' import, the view classifier).

    Conventions.
    - JavaScript strings are Rocq [string]s.  Positions count characters
      of the Rocq string; every slice the code takes is cut at a brace,
      an ASCII character, so the slices are the same ones JavaScript
      takes on UTF-16 code units.
    - acorn ([parse], [parseExpressionAt]) and the table of the package
      html-tag-names are collaborators: they are Section variables.
    - A JavaScript exception is the [Err] case of [result]. *)

From Stdlib Require Import ZArith Lia Ascii String List Bool PrimFloat.
From stdpp Require Import base option list strings gmap.

Set Warnings "-register-all".

Local Open Scope string_scope.
Local Open Scope list_scope.

(** ** JavaScript values carried by the document and by literals *)

(** A hast property value, or the payload of an ESTree [Literal]:
    a string, a number (a JavaScript number is a binary64 float; the
    code only passes it on), a boolean or an array of tokens (class
    lists and the other space- or comma-separated attributes). *)
Inductive jsValue : Type :=
| VStr (s : string)
| VNum (n : float)
| VBool (b : bool)
| VList (tokens : list string).

(** ** Exceptions *)

(** [Error message] is [throw new Error(message)]; [SyntaxError] is what
    acorn throws on source text it rejects. *)
Inductive exn : Type :=
| Error (message : string)
| SyntaxError.

Inductive result (A : Type) : Type :=
| Ok (value : A)
| Err (e : exn).
Arguments Ok {A} value.
Arguments Err {A} e.

Definition bind {A B : Type} (r : result A) (k : A -> result B) : result B :=
  match r with
  | Ok a => k a
  | Err e => Err e
  end.

Notation "'let*' x ':=' r 'in' k" := (bind r (fun x => k))
  (at level 10, x name, r at level 100, k at level 200).

(** ** ESTree nodes, as estree-builder and acorn make them *)

(** The name an import specifier gives to the export it imports: an
    identifier ([imported.name] is the name) or, as in
    [import { "el" as x }], a string literal, which has no [name]. *)
Inductive exportName : Type :=
| IdentifierName (name : string)
| StringName (value : string).

Inductive specifier : Type :=
| ImportSpecifier (imported : exportName) (local : string)
| ImportDefaultSpecifier (local : string)
| ImportNamespaceSpecifier (local : string).

(** The last two constructors are not ESTree nodes but the two other
    JavaScript values that travel where a node is expected: [null]
    (returned by [toDraw]) and a plain array of nodes (returned by
    [handleExpressions]). *)
Inductive estree : Type :=
| Literal (value : jsValue)
| Identifier (name : string)
| ArrayExpression (elements : list estree)
| ObjectExpression (properties : list (string * estree))
| MemberExpression (object property : estree)
| CallExpression (callee : estree) (arguments : list estree)
| NewExpression (callee : estree) (arguments : list estree)
| BinaryExpression (operator : string) (left right : estree)
| ExpressionStatement (expression : estree)
| ReturnStatement (argument : estree)
| FunctionExpression (id : string) (params : list string) (body : list estree)
| ExportDefaultDeclaration (declaration : estree)
| ImportDeclaration (specifiers : list specifier) (source : string)
| JsNull
| JsArray (items : list estree).

(** ** The document tree (hast) *)

(** [View] is the node type 'view' that the classifier of [load] writes
    into an element; the parser never produces it. [Comment] and
    [Doctype] are the hast node types without a handler. *)
Inductive node : Type :=
| Root (children : list node)
| Element (tagName : string) (properties : list (string * jsValue))
    (children : list node)
| View (tagName : string) (properties : list (string * jsValue))
    (children : list node)
| Text (value : string)
| Comment (value : string)
| Doctype.

(** ** findExpression (index.js, lines 15-32) *)

Section Scan.
Context {A : Type}.
(** [str[pos] === '{'] and [str[pos] === '}'] *)
Variable isOpen isClose : A -> bool.

(** The [for] loop from position [pos] on, [str] being the items not
    yet read. [openBraces] is a JavaScript number and may go below 0. *)
Fixpoint scan (str : list A) (pos : nat) (openBraces : Z) (start : nat)
  : option (nat * nat) :=
  match str with
  | [] => None
  | c :: rest =>
      let start := if isOpen c && (openBraces =? 0)%Z then pos else start in
      let openBraces := if isOpen c then (openBraces + 1)%Z else openBraces in
      if isClose c then
        let openBraces := (openBraces - 1)%Z in
        if (openBraces =? 0)%Z then Some (start, pos)
        else scan rest (S pos) openBraces start
      else scan rest (S pos) openBraces start
  end.

(** The brace depth of a run of items: openers minus closers. *)
Fixpoint depth (str : list A) : Z :=
  match str with
  | [] => 0
  | c :: rest =>
      ((if isOpen c then 1 else 0) - (if isClose c then 1 else 0)
       + depth rest)%Z
  end.

(** No closer brings the depth back to 0: whenever [str] is cut right
    after a closer, the part read so far has a depth other than 0. *)
Definition noReturn (str : list A) : Prop :=
  forall before c after,
    str = before ++ c :: after -> isClose c = true ->
    depth (before ++ [c]) <> 0%Z.

(** The same, as a test that runs: is there a closer in [str] at which
    the depth, [openBraces] before [str], is back to 0? *)
Fixpoint returnsToZero (str : list A) (openBraces : Z) : bool :=
  match str with
  | [] => false
  | c :: rest =>
      let after :=
        (openBraces + (if isOpen c then 1 else 0)
         - (if isClose c then 1 else 0))%Z in
      (isClose c && (after =? 0)%Z) || returnsToZero rest after
  end.

(** No part of [str] read from its left end closes more than it opens. *)
Definition nonNegative (str : list A) : Prop :=
  forall before after, str = before ++ after -> (0 <= depth before)%Z.

(** Every opener of [str] is closed in [str], and nothing else is. *)
Definition balanced (str : list A) : Prop :=
  depth str = 0%Z /\ nonNegative str.

(** What the loop knows about [start] while the depth is positive:
    [done] is the part of the input already read. *)
Definition startInv (done : list A) (start : nat) : Prop :=
  (1 <= depth done)%Z ->
  exists pre o mid,
    done = pre ++ o :: mid /\ isOpen o = true /\ start = length pre /\
    depth pre = 0%Z /\ nonNegative mid.
End Scan.

Definition chars (s : string) : list ascii := list_ascii_of_string s.

Definition openChar (c : ascii) : bool := Ascii.eqb c "{"%char.
Definition closeChar (c : ascii) : bool := Ascii.eqb c "}"%char.
Definition openToken (t : string) : bool := String.eqb t "{".
Definition closeToken (t : string) : bool := String.eqb t "}".

(** [str.length] is undefined on a number or a boolean: the loop body
    never runs and the result is [null]. On an array, [str[pos]] is a
    whole token. *)
Definition findExpression (str : jsValue) : option (nat * nat) :=
  match str with
  | VStr s => scan openChar closeChar (chars s) 0 0%Z 0
  | VList tokens => scan openToken closeToken tokens 0 0%Z 0
  | VNum _ | VBool _ => None
  end.

(** ** handleExpressions (lines 34-50) *)

Definition sliceString (s : string) (from to : nat) : string :=
  string_of_list_ascii (take (to - from) (drop from (chars s))).

(** [value.slice(from, to)] for [from <= to]. Numbers and booleans have no
    [slice]; [handleExpressions] never slices them, because
    [findExpression] is [null] there. *)
Definition slice (value : jsValue) (from to : nat) : jsValue :=
  match value with
  | VStr s => VStr (sliceString s from to)
  | VList tokens => VList (take (to - from) (drop from tokens))
  | other => other
  end.

(** [value.length] where it is a number. *)
Definition jsLength (value : jsValue) : nat :=
  match value with
  | VStr s => String.length s
  | VList tokens => List.length tokens
  | _ => 0
  end.

Section Compiler.
(** acorn's [parseExpressionAt(input, 0, { ecmaVersion: 'latest' })]:
    [None] when it throws. *)
Variable parseExpressionAt : jsValue -> option estree.

(** acorn's [parse(input, { ecmaVersion, sourceType, program })]: the
    statements it appends to [program.body], [None] when it throws.
    The input is [None] when the caller passes [undefined]. *)
Variable parse : option string -> jsValue -> option (list estree).

(** The table exported by the package html-tag-names. *)
Variable htmlTagNames : list string.

Definition acornExpression (input : jsValue) : result estree :=
  match parseExpressionAt input with
  | Some expression => Ok expression
  | None => Err SyntaxError
  end.

(** Returns [JsArray parts] when a span is found and the bare literal
    [e.str(value)] otherwise. *)
Definition handleExpressions (value : jsValue) : result estree :=
  match findExpression value with
  | Some (start, end_) =>
      let parts :=
        if (0 <? start)%nat then [Literal (slice value 0 start)] else [] in
      let* expression := acornExpression (slice value (start + 1) end_) in
      let parts := parts ++ [expression] in
      let parts :=
        if (end_ + 1 <? jsLength value)%nat
        then parts ++ [Literal (slice value (end_ + 1) (jsLength value))]
        else parts in
      Ok (JsArray parts)
  | None => Ok (Literal value)
  end.

(** ** parseProperties (lines 52-70) *)

(** [properties[key] = value] on the accumulator object. *)
Fixpoint objSet (properties : list (string * estree)) (key : string)
  (value : estree) : list (string * estree) :=
  match properties with
  | [] => [(key, value)]
  | (k, old) :: rest =>
      if String.eqb k key then (k, value) :: rest
      else (k, old) :: objSet rest key value
  end.

(** [e.call(e('.', e.arr(value), e.id('join')), [e.str('')])] *)
Definition joinCall (value : list estree) : estree :=
  CallExpression
    (MemberExpression (ArrayExpression value) (Identifier "join"))
    [Literal (VStr "")].

(** The class-name normalisation at the head of the reducer. *)
Definition joinClassName (key : string) (value : jsValue) : jsValue :=
  match value with
  | VList tokens =>
      if String.eqb key "className" then VStr (String.concat " " tokens)
      else value
  | _ => value
  end.

(** One step of the reducer: the value stored under [key]. *)
Definition lowerProperty (key : string) (value : jsValue) : result estree :=
  let value := joinClassName key value in
  let* value := handleExpressions value in
  match value with
  | JsArray parts => Ok (joinCall parts)
  | _ => Ok value
  end.

Fixpoint reduceProperties (entries : list (string * jsValue))
  (properties : list (string * estree)) : result (list (string * estree)) :=
  match entries with
  | [] => Ok properties
  | (key, value) :: rest =>
      let* lowered := lowerProperty key value in
      reduceProperties rest (objSet properties key lowered)
  end.

Definition parseProperties (properties : list (string * jsValue))
  : result (list (string * estree)) :=
  reduceProperties properties [].

(** ** handlers (lines 72-106) *)

Definition nestedScriptMessage : string :=
  "Nested <script> tags are not supported!".

Definition handlers_root (children : list estree) : estree :=
  ExportDefaultDeclaration
    (FunctionExpression "draw" ["ctx"]
       [ReturnStatement (ArrayExpression children)]).

Definition handlers_element (tagName : string)
  (properties : list (string * jsValue)) (children : list estree)
  : result estree :=
  if String.eqb tagName "script" then Err (Error nestedScriptMessage)
  else
    let* properties := parseProperties properties in
    Ok (CallExpression (Identifier "el")
          [Literal (VStr tagName); ObjectExpression properties;
           ArrayExpression children]).

Definition handlers_text (value : string) : result estree :=
  handleExpressions (VStr value).

Definition handlers_view (tagName : string)
  (properties : list (string * jsValue)) : result estree :=
  let* properties := parseProperties properties in
  Ok (NewExpression (Identifier tagName) [ObjectExpression properties]).

(** ** toDraw (lines 108-121) *)

Definition newline : string := String (ascii_of_nat 10) "".

(** [child.type !== 'text' || child.value !== '\n'] *)
Definition notEmptyLine (child : node) : bool :=
  match child with
  | Text value => negb (String.eqb value newline)
  | _ => true
  end.

(** What [flatMap] does with one callback result: an array is spliced,
    anything else ([null] included) is one item. *)
Definition flat (drawn : estree) : list estree :=
  match drawn with
  | JsArray items => items
  | other => [other]
  end.

(** A node whose type has no handler gives [null]; a text node has no
    [children] and goes to its handler directly; the other three lower
    their kept children first, left to right, then call the handler. *)
Fixpoint toDraw (n : node) : result estree :=
  let flatMapToDraw :=
    fix flatMapToDraw (children : list node) : result (list estree) :=
      match children with
      | [] => Ok []
      | child :: rest =>
          if notEmptyLine child then
            let* drawn := toDraw child in
            let* others := flatMapToDraw rest in
            Ok (flat drawn ++ others)
          else flatMapToDraw rest
      end in
  match n with
  | Root children =>
      let* children := flatMapToDraw children in
      Ok (handlers_root children)
  | Element tagName properties children =>
      let* children := flatMapToDraw children in
      handlers_element tagName properties children
  | View tagName properties children =>
      let* _children := flatMapToDraw children in
      handlers_view tagName properties
  | Text value => handlers_text value
  | Comment _ | Doctype => Ok JsNull
  end.

(** The children pipeline of [toDraw], as a function of its own. *)
Fixpoint flatMapToDraw (children : list node) : result (list estree) :=
  match children with
  | [] => Ok []
  | child :: rest =>
      if notEmptyLine child then
        let* drawn := toDraw child in
        let* others := flatMapToDraw rest in
        Ok (flat drawn ++ others)
      else flatMapToDraw rest
  end.

(** ** load: script extraction (lines 154-166) *)

Definition tagNameOf (n : node) : option string :=
  match n with
  | Element tagName _ _ | View tagName _ _ => Some tagName
  | _ => None
  end.

Definition propertiesOf (n : node) : list (string * jsValue) :=
  match n with
  | Element _ properties _ | View _ properties _ => properties
  | _ => []
  end.

Definition childrenOf (n : node) : list node :=
  match n with
  | Root children | Element _ _ children | View _ _ children => children
  | _ => []
  end.

(** [script.value] *)
Definition valueOf (n : node) : option string :=
  match n with
  | Text value | Comment value => Some value
  | _ => None
  end.

(** [object[key]] on a property bag. *)
Fixpoint getProperty (properties : list (string * jsValue)) (key : string)
  : option jsValue :=
  match properties with
  | [] => None
  | (k, value) :: rest =>
      if String.eqb k key then Some value else getProperty rest key
  end.

Definition isScript (element : node) : bool :=
  match tagNameOf element with
  | Some tagName => String.eqb tagName "script"
  | None => false
  end.

(** [element.children.forEach(script => parse(script.value, ...))] *)
Fixpoint parseScripts (sourceType : jsValue) (scripts : list node)
  (body : list estree) : result (list estree) :=
  match scripts with
  | [] => Ok body
  | script :: rest =>
      match parse (valueOf script) sourceType with
      | Some statements => parseScripts sourceType rest (body ++ statements)
      | None => Err SyntaxError
      end
  end.

(** The [filter] over [hast.children]: the children kept, and
    [module.body] after every script block has been parsed into it. *)
Fixpoint extractScripts (children : list node) (body : list estree)
  : result (list node * list estree) :=
  match children with
  | [] => Ok ([], body)
  | element :: rest =>
      if isScript element then
        let type := default (VStr "script")
                      (getProperty (propertiesOf element) "type") in
        let* body := parseScripts type (childrenOf element) body in
        extractScripts rest body
      else
        let* extracted := extractScripts rest body in
        Ok (element :: fst extracted, snd extracted)
  end.

(** ** load: the { el } import (lines 168-186) *)

Definition isElImport (s : specifier) : bool :=
  match s with
  | ImportSpecifier (IdentifierName name) _ => String.eqb name "el"
  | _ => false
  end.

(** [e('named-import', e.id('el'))] *)
Definition elSpecifier : specifier :=
  ImportSpecifier (IdentifierName "el") "el".

(** The [find] with its side effect: [None] when no statement matches,
    and otherwise the body in which the first matching import has
    received the specifier it lacked. *)
Fixpoint findOvertureDomImport (body : list estree) : option (list estree) :=
  match body with
  | [] => None
  | ImportDeclaration specifiers source :: rest =>
      if String.eqb source "overture/dom" then
        if existsb isElImport specifiers then
          Some (ImportDeclaration specifiers source :: rest)
        else
          Some (ImportDeclaration (specifiers ++ [elSpecifier]) source :: rest)
      else
        option_map (cons (ImportDeclaration specifiers source))
          (findOvertureDomImport rest)
  | statement :: rest =>
      option_map (cons statement) (findOvertureDomImport rest)
  end.

Definition addElImport (body : list estree) : list estree :=
  match findOvertureDomImport body with
  | Some body => body
  | None => ImportDeclaration [elSpecifier] "overture/dom" :: body
  end.

(** ** load: the table of imported view classes (lines 188-201) *)

Definition isUpper (c : ascii) : bool :=
  (65 <=? nat_of_ascii c)%nat && (nat_of_ascii c <=? 90)%nat.

Definition lowerChar (c : ascii) : ascii :=
  if isUpper c then ascii_of_nat (nat_of_ascii c + 32) else c.

(** [name.toLowerCase()], on the ASCII letters. *)
Fixpoint toLowerCase (name : string) : string :=
  match name with
  | EmptyString => EmptyString
  | String c rest => String (lowerChar c) (toLowerCase rest)
  end.

(** [/^[A-Z]/.test(name)] *)
Definition startsUpper (name : string) : bool :=
  match name with
  | EmptyString => false
  | String c _ => isUpper c
  end.

Definition localName (s : specifier) : string :=
  match s with
  | ImportSpecifier _ local => local
  | ImportDefaultSpecifier local => local
  | ImportNamespaceSpecifier local => local
  end.

Definition registerSpecifier (imports : gmap string string) (s : specifier)
  : gmap string string :=
  let name := localName s in
  if startsUpper name then <[toLowerCase name := name]> imports
  else imports.

Definition registerStatement (imports : gmap string string) (n : estree)
  : gmap string string :=
  match n with
  | ImportDeclaration specifiers _ =>
      fold_left registerSpecifier specifiers imports
  | _ => imports
  end.

Definition collectImports (body : list estree) : gmap string string :=
  fold_left registerStatement body ∅.

(** ** load: the classifier (lines 203-215) *)

Definition standardTags (tagName : string) : bool :=
  existsb (String.eqb tagName) htmlTagNames.

(** The visitor body: what becomes of an element's type and tag name. *)
Definition classify (imports : gmap string string) (tagName : string)
  : option string :=
  if standardTags tagName then None
  else
    match imports !! tagName with
    | Some klass => if String.eqb klass "" then None else Some klass
    | None => None
    end.

(** [visit(hast, 'element', visitor)]: the visitor runs on the nodes of
    type 'element'; the walk goes on into the children of every node
    that has some, rewritten or not. *)
Fixpoint visit (imports : gmap string string) (n : node) : node :=
  match n with
  | Root children => Root (map (visit imports) children)
  | Element tagName properties children =>
      match classify imports tagName with
      | Some klass => View klass properties (map (visit imports) children)
      | None => Element tagName properties (map (visit imports) children)
      end
  | View tagName properties children =>
      View tagName properties (map (visit imports) children)
  | Text value => Text value
  | Comment value => Comment value
  | Doctype => Doctype
  end.

(** ** load (lines 149-226), from the parsed document to the module

    [children] is [hast.children] of the root node the parsers return;
    the result is [module.body] as handed to the printer. *)
Definition load (children : list node) : result (list estree) :=
  let* extracted := extractScripts children [] in
  let body := addElImport (snd extracted) in
  let imports := collectImports body in
  let hast := visit imports (Root (fst extracted)) in
  let* draw := toDraw hast in
  Ok (body ++ [draw]).

End Compiler.

(** ** Stand-ins for the collaborators, to run the code on examples

    Finite excerpts: each agrees with the real collaborator on the inputs
    it lists, and the two parsers reject every other input. *)

(** acorn on three expressions; the empty input is a syntax error for
    acorn too ("Unexpected token"). *)
Definition sampleParseExpressionAt (input : jsValue) : option estree :=
  match input with
  | VStr "x" => Some (Identifier "x")
  | VStr "1+1" =>
      Some (BinaryExpression "+" (Literal (VNum 1%float))
              (Literal (VNum 1%float)))
  | _ => None
  end.

(** acorn on three programs. An [undefined] input goes through
    [String(input)] and is the program [undefined]; an [import] is a
    syntax error unless the source type is 'module'. *)
Definition sampleParse (input : option string) (sourceType : jsValue)
  : option (list estree) :=
  match input, sourceType with
  | None, _ => Some [ExpressionStatement (Identifier "undefined")]
  | Some "import Foo from './Foo.js'", VStr "module" =>
      Some [ImportDeclaration [ImportDefaultSpecifier "Foo"] "./Foo.js"]
  | Some "import ClipPath from './ClipPath.js'", VStr "module" =>
      Some [ImportDeclaration [ImportDefaultSpecifier "ClipPath"]
              "./ClipPath.js"]
  | Some _, _ => None
  end.

(** Some of the names in html-tag-names. *)
Definition sampleTagNames : list string :=
  ["a"; "div"; "p"; "script"; "span"].

(** ** Vocabulary of the statements *)

(** The literal segment made of [s], present only if [s] is not empty. *)
Definition literalPart (s : string) : list estree :=
  match s with
  | EmptyString => []
  | _ => [Literal (VStr s)]
  end.

(** [lowered target n]: lowering [n] lowers [target] on the way, because
    [target] is [n] or sits below it along children that [toDraw] keeps
    and recurses into. *)
Inductive lowered (target : node) : node -> Prop :=
| lowered_here : lowered target target
| lowered_below (parent child : node) :
    child ∈ childrenOf parent -> notEmptyLine child = true ->
    lowered target child -> lowered target parent.

(** [carries value n]: [value] is the text of the text node [n] or the
    value, a class list joined, of an attribute of the element or view
    [n]. *)
Definition carries (value : string) (n : node) : Prop :=
  match n with
  | Text v => v = value
  | Element _ properties _ | View _ properties _ =>
      exists key v,
        (key, v) ∈ properties /\ joinClassName key v = VStr value
  | _ => False
  end.

(** [handlers.hasOwnProperty(type)]: the four keys of [handlers]. *)
Definition hasHandler (type : string) : bool :=
  existsb (String.eqb type) ["root"; "element"; "text"; "view"].

(** The two exceptions of a compilation. *)
Definition expectedError (e : exn) : Prop :=
  e = Error nestedScriptMessage \/ e = SyntaxError.

(** [node.type] *)
Definition type (n : node) : string :=
  match n with
  | Root _ => "root"
  | Element _ _ _ => "element"
  | View _ _ _ => "view"
  | Text _ => "text"
  | Comment _ => "comment"
  | Doctype => "doctype"
  end.

(** What holds of every entry of the table of imports. *)
Definition registryInv (imports : gmap string string) : Prop :=
  forall key name, imports !! key = Some name ->
    toLowerCase name = key /\ startsUpper name = true.

(** Is [n] an import statement from the module [source]? *)
Definition isImportFrom (source : string) (n : estree) : bool :=
  match n with
  | ImportDeclaration _ from => String.eqb from source
  | _ => false
  end.

(** The number of import statements of [body] from the module [source]. *)
Fixpoint importsFrom (source : string) (body : list estree) : nat :=
  match body with
  | [] => 0
  | n :: rest =>
      ((if isImportFrom source n then 1 else 0) + importsFrom source rest)%nat
  end.

(** Does [s] import the export named el, by an identifier or by a
    string literal? *)
Definition importsEl (s : specifier) : bool :=
  match s with
  | ImportSpecifier (IdentifierName name) _ => String.eqb name "el"
  | ImportSpecifier (StringName value) _ => String.eqb value "el"
  | _ => false
  end.

(** Does [s] name what it imports by an identifier, as every specifier
    did before string names were allowed? *)
Definition namedByIdentifier (s : specifier) : bool :=
  match s with
  | ImportSpecifier (StringName _) _ => false
  | _ => true
  end.

(** No import statement of [body] names an export by a string literal. *)
Definition identifierNamed (body : list estree) : bool :=
  forallb (fun n =>
             match n with
             | ImportDeclaration specifiers _ =>
                 forallb namedByIdentifier specifiers
             | _ => true
             end) body.

(** The number of specifiers of one statement that import [el], if it
    is an import from 'overture/dom'. *)
Definition elSpecifiers (n : estree) : nat :=
  match n with
  | ImportDeclaration specifiers from =>
      if String.eqb from "overture/dom"
      then length (List.filter importsEl specifiers)
      else 0
  | _ => 0
  end.

(** The number of times [body] imports [el] from 'overture/dom'. *)
Fixpoint elImports (body : list estree) : nat :=
  match body with
  | [] => 0
  | n :: rest => (elSpecifiers n + elImports rest)%nat
  end.

(** ** Vocabulary of the further properties *)

(** Does the depth, [openBraces] before [str], stay at 0 or above all
    along [str]? *)
Fixpoint neverBelow {A : Type} (isOpen isClose : A -> bool) (str : list A)
  (openBraces : Z) : bool :=
  match str with
  | [] => true
  | c :: rest =>
      let after :=
        (openBraces + (if isOpen c then 1 else 0)
         - (if isClose c then 1 else 0))%Z in
      (0 <=? after)%Z && neverBelow isOpen isClose rest after
  end.

(** A string without any brace. *)
Definition braceFree (s : string) : bool :=
  forallb (fun c => negb (openChar c || closeChar c)) (chars s).

(** A string whose braces match: [balanced], as a test that runs. *)
Definition balancedString (s : string) : bool :=
  neverBelow openChar closeChar (chars s) 0
  && (depth openChar closeChar (chars s) =? 0)%Z.

(** The source type a script block is parsed with: its [type] property,
    'script' when it has none. *)
Definition sourceTypeOf (element : node) : jsValue :=
  default (VStr "script") (getProperty (propertiesOf element) "type").

(** What the top-level script blocks hand to acorn, in document order:
    the [value] of each child of each block with the block's source
    type. *)
Fixpoint scriptInputs (children : list node)
  : list (option string * jsValue) :=
  match children with
  | [] => []
  | element :: rest =>
      (if isScript element
       then map (fun script => (valueOf script, sourceTypeOf element))
              (childrenOf element)
       else [])
      ++ scriptInputs rest
  end.

(** All the inputs parsed in order, the statements put end to end;
    [None] as soon as one input is rejected. *)
Fixpoint parseAll (parse : option string -> jsValue -> option (list estree))
  (inputs : list (option string * jsValue)) : option (list estree) :=
  match inputs with
  | [] => Some []
  | (input, sourceType) :: rest =>
      match parse input sourceType with
      | Some statements => option_map (app statements) (parseAll parse rest)
      | None => None
      end
  end.

(** The local names bound by the import statements of [body], in order. *)
Fixpoint importedNames (body : list estree) : list string :=
  match body with
  | [] => []
  | ImportDeclaration specifiers _ :: rest =>
      map localName specifiers ++ importedNames rest
  | _ :: rest => importedNames rest
  end.

(** What the table does with one local name. *)
Definition registerName (imports : gmap string string) (name : string)
  : gmap string string :=
  if startsUpper name then <[toLowerCase name := name]> imports else imports.

(** Is [name] registered by the table under [key]? *)
Definition registersAs (key name : string) : bool :=
  startsUpper name && String.eqb (toLowerCase name) key.

(** The expression a node without embedded code stands for: elements
    call [el] with their attributes as literals and with their children
    other than the empty lines. *)
Fixpoint static (n : node) : estree :=
  match n with
  | Root children =>
      handlers_root
        (flat_map (fun child => if notEmptyLine child then [static child]
                                else []) children)
  | Element tagName properties children =>
      CallExpression (Identifier "el")
        [Literal (VStr tagName);
         ObjectExpression
           (map (fun entry => (fst entry,
                               Literal (joinClassName (fst entry) (snd entry))))
              properties);
         ArrayExpression
           (flat_map (fun child => if notEmptyLine child then [static child]
                                   else []) children)]
  | View tagName properties _ =>
      NewExpression (Identifier tagName)
        [ObjectExpression
           (map (fun entry => (fst entry,
                               Literal (joinClassName (fst entry) (snd entry))))
              properties)]
  | Text value => Literal (VStr value)
  | Comment _ | Doctype => JsNull
  end.

(** Property bags in which no value, a class list joined, has a span,
    and no name comes twice. *)
Definition plainProperties (properties : list (string * jsValue)) : bool :=
  forallb (fun entry =>
             match findExpression (joinClassName (fst entry) (snd entry)) with
             | None => true
             | Some _ => false
             end) properties
  && bool_decide (NoDup (map fst properties)).

(** Trees made of elements other than script blocks and of text, in
    which no text and no attribute has a span. *)
Fixpoint plain (n : node) : bool :=
  match n with
  | Element tagName properties children =>
      negb (String.eqb tagName "script") && plainProperties properties
      && forallb plain children
  | Text value =>
      match findExpression (VStr value) with
      | None => true
      | Some _ => false
      end
  | _ => false
  end.

(** * Properties *)

(** ** The brace scanner *)

Section ScanFacts.
Context {A : Type}.
Variable isOpen isClose : A -> bool.
Hypothesis open_not_close : forall c, isOpen c = true -> isClose c = false.

Local Abbreviation depth := (depth isOpen isClose).
Local Abbreviation scan := (scan isOpen isClose).
Local Abbreviation noReturn := (noReturn isOpen isClose).
Local Abbreviation balanced := (balanced isOpen isClose).
Local Abbreviation nonNegative := (nonNegative isOpen isClose).
Local Abbreviation startInv := (startInv isOpen isClose).

Lemma depth_app (l1 l2 : list A) : depth (l1 ++ l2) = (depth l1 + depth l2)%Z.
Proof. induction l1 as [|c l1 IH]; simpl; [lia | rewrite IH; lia]. Qed.

Lemma depth_snoc (l : list A) (c : A) :
  depth (l ++ [c]) =
  (depth l + (if isOpen c then 1 else 0) - (if isClose c then 1 else 0))%Z.
Proof. rewrite depth_app. simpl. lia. Qed.

(** A cut of [l ++ [x]] is a cut of [l], or the cut before the end. *)
Lemma snoc_split (l : list A) (x : A) (p q : list A) :
  l ++ [x] = p ++ q ->
  (q = [] /\ p = l ++ [x]) \/ (exists q', q = q' ++ [x] /\ l = p ++ q').
Proof.
  intros E. destruct q as [|y q _] using rev_ind.
  - left. rewrite app_nil_r in E. auto.
  - right. rewrite app_assoc in E. apply app_inj_tail in E as [-> ->]. eauto.
Qed.

Lemma nonNegative_snoc (l : list A) (x : A) :
  nonNegative l -> (0 <= depth (l ++ [x]))%Z -> nonNegative (l ++ [x]).
Proof.
  intros Hl Hx p q E. apply snoc_split in E as [[_ ->]|(q' & _ & ->)]; eauto.
Qed.

Lemma noReturn_snoc (l : list A) (x : A) :
  noReturn l -> (isClose x = true -> depth (l ++ [x]) <> 0%Z) ->
  noReturn (l ++ [x]).
Proof.
  intros Hl Hx p c q E Hc. destruct q as [|y q _] using rev_ind.
  - apply app_inj_tail in E as [<- <-]. auto.
  - change (p ++ c :: q ++ [y]) with (p ++ (c :: q) ++ [y]) in E.
    rewrite app_assoc in E. apply app_inj_tail in E as [-> _].
    eapply Hl; eauto.
Qed.

Lemma scan_Some (l : list A) : forall (done : list A) (start a b : nat),
  startInv done start -> noReturn done ->
  scan l (length done) (depth done) start = Some (a, b) ->
  exists pre o inner c suf,
    done ++ l = pre ++ o :: inner ++ c :: suf /\
    isOpen o = true /\ isClose c = true /\
    a = length pre /\ b = (length pre + 1 + length inner)%nat /\
    depth pre = 0%Z /\ balanced inner /\ noReturn (pre ++ o :: inner).
Proof.
  induction l as [|x rest IH]; intros done start a b Hinv Hnr Hscan;
    [discriminate|].
  simpl in Hscan.
  assert (Hlen : S (length done) = length (done ++ [x]))
    by (rewrite length_app; simpl; lia).
  pose proof (depth_snoc done x) as Hd.
  destruct (isOpen x) eqn:Ho.
  - (* an opener *)
    rewrite (open_not_close _ Ho) in Hscan, Hd. simpl in Hscan.
    replace (depth done + 1)%Z with (depth (done ++ [x])) in Hscan by lia.
    rewrite Hlen in Hscan.
    apply IH in Hscan.
    + destruct Hscan as (pre & o & inner & c & suf & E & H).
      exists pre, o, inner, c, suf. rewrite <- app_assoc in E. auto.
    + intros Hpos. destruct (Z.eqb_spec (depth done) 0) as [Hz|Hz].
      * exists done, x, []. repeat split; auto.
        intros p q E. symmetry in E. apply app_eq_nil in E as [-> _].
        simpl. lia.
      * destruct Hinv as (pre & o & mid & -> & Hop & -> & Hpre & Hmid);
          [lia|].
        exists pre, o, (mid ++ [x]). rewrite <- app_assoc. repeat split; auto.
        apply nonNegative_snoc; auto.
        rewrite depth_snoc, Ho, (open_not_close _ Ho).
        specialize (Hmid mid [] (eq_sym (app_nil_r _))). lia.
    + apply noReturn_snoc; auto. rewrite (open_not_close _ Ho).
      intros; discriminate.
  - rewrite andb_false_l in Hscan. destruct (isClose x) eqn:Hc.
    + (* a closer *)
      destruct (Z.eqb_spec (depth done - 1) 0) as [Hz|Hz].
      * inversion Hscan; subst a b; clear Hscan.
        destruct Hinv as (pre & o & mid & -> & Hop & -> & Hpre & Hmid);
          [lia|].
        exists pre, o, mid, x, rest. rewrite <- app_assoc.
        repeat split; auto.
        -- rewrite length_app. simpl. lia.
        -- rewrite depth_app in Hz. simpl in Hz.
           rewrite Hop, (open_not_close _ Hop) in Hz. lia.
      * replace (depth done - 1)%Z with (depth (done ++ [x])) in Hscan by lia.
        rewrite Hlen in Hscan. apply IH in Hscan.
        -- destruct Hscan as (pre & o & inner & c & suf & E & H).
           exists pre, o, inner, c, suf. rewrite <- app_assoc in E. auto.
        -- intros Hpos.
           destruct Hinv as (pre & o & mid & -> & Hop & -> & Hpre & Hmid);
             [lia|].
           exists pre, o, (mid ++ [x]). rewrite <- app_assoc.
           repeat split; auto.
           apply nonNegative_snoc; auto.
           rewrite depth_snoc, Ho, Hc.
           rewrite <- app_assoc in Hpos. simpl in Hpos.
           rewrite depth_app in Hpos. simpl in Hpos.
           rewrite depth_app in Hpos. simpl in Hpos.
           rewrite Hop, (open_not_close _ Hop), Ho, Hc in Hpos. lia.
        -- apply noReturn_snoc; auto. intros _. lia.
    + (* any other item *)
      replace (depth done) with (depth (done ++ [x])) in Hscan by lia.
      rewrite Hlen in Hscan. apply IH in Hscan.
      * destruct Hscan as (pre & o & inner & c & suf & E & H).
        exists pre, o, inner, c, suf. rewrite <- app_assoc in E. auto.
      * intros Hpos.
        destruct Hinv as (pre & o & mid & -> & Hop & -> & Hpre & Hmid);
          [lia|].
        exists pre, o, (mid ++ [x]). rewrite <- app_assoc.
        repeat split; auto.
        apply nonNegative_snoc; auto.
        rewrite depth_snoc, Ho, Hc.
        specialize (Hmid mid [] (eq_sym (app_nil_r _))). lia.
      * apply noReturn_snoc; auto. intros; congruence.
Qed.

Lemma scan_None (l : list A) : forall (done : list A) (start : nat),
  noReturn done ->
  scan l (length done) (depth done) start = None ->
  noReturn (done ++ l).
Proof.
  induction l as [|x rest IH]; intros done start Hnr Hscan.
  - now rewrite app_nil_r.
  - simpl in Hscan.
    assert (Hlen : S (length done) = length (done ++ [x]))
      by (rewrite length_app; simpl; lia).
    pose proof (depth_snoc done x) as Hd.
    rewrite Hlen in Hscan.
    change (done ++ x :: rest) with (done ++ [x] ++ rest).
    rewrite app_assoc.
    destruct (isOpen x) eqn:Ho.
    + rewrite (open_not_close _ Ho) in Hscan, Hd.
      replace (depth done + 1)%Z with (depth (done ++ [x])) in Hscan by lia.
      eapply IH; eauto. apply noReturn_snoc; auto.
      rewrite (open_not_close _ Ho). intros; discriminate.
    + destruct (isClose x) eqn:Hc.
      * destruct (Z.eqb_spec (depth done - 1) 0) as [Hz|Hz]; [discriminate|].
        replace (depth done - 1)%Z with (depth (done ++ [x])) in Hscan by lia.
        eapply IH; eauto. apply noReturn_snoc; auto. intros _. lia.
      * replace (depth done) with (depth (done ++ [x])) in Hscan by lia.
        eapply IH; eauto. apply noReturn_snoc; auto. intros; congruence.
Qed.

(** The loop finds nothing exactly when no closer returns to depth 0. *)
Lemma scan_returnsToZero (l : list A) : forall (pos start : nat) (d : Z),
  scan l pos d start = None <-> returnsToZero isOpen isClose l d = false.
Proof.
  induction l as [|x rest IH]; intros pos start d; simpl; [tauto|].
  destruct (isOpen x) eqn:Ho.
  - rewrite (open_not_close _ Ho). simpl.
    replace (d + 1 - 0)%Z with (d + 1)%Z by lia. apply IH.
  - rewrite andb_false_l. destruct (isClose x) eqn:Hc; simpl.
    + replace (d + 0 - 1)%Z with (d - 1)%Z by lia.
      destruct (d - 1 =? 0)%Z; simpl; [split; discriminate | apply IH].
    + replace (d + 0 - 0)%Z with d by lia. apply IH.
Qed.

Lemma noReturn_nil : noReturn [].
Proof. intros p c q E. destruct p; discriminate. Qed.

Lemma startInv_nil (start : nat) : startInv [] start.
Proof. intros H. simpl in H. lia. Qed.

(** The whole loop, from position 0 at depth 0. *)
Lemma scan_found (str : list A) (a b : nat) :
  scan str 0 0%Z 0 = Some (a, b) ->
  exists pre o inner c suf,
    str = pre ++ o :: inner ++ c :: suf /\
    isOpen o = true /\ isClose c = true /\
    a = length pre /\ b = (length pre + 1 + length inner)%nat /\
    depth pre = 0%Z /\ balanced inner /\ noReturn (pre ++ o :: inner).
Proof.
  intros H.
  apply (scan_Some str [] 0 a b (startInv_nil 0) noReturn_nil H).
Qed.

Lemma scan_not_found (str : list A) :
  scan str 0 0%Z 0 = None <-> noReturn str.
Proof.
  split.
  - intros H. apply (scan_None str [] 0 noReturn_nil H).
  - intros Hnr. destruct (scan str 0 0%Z 0) as [[a b]|] eqn:E; [|reflexivity].
    exfalso. apply scan_found in E
      as (pre & o & inner & c & suf & -> & Ho & Hc & _ & _ & Hp & [Hi _] & _).
    apply (Hnr (pre ++ o :: inner) c suf); auto.
    + now rewrite <- app_assoc.
    + rewrite depth_snoc, depth_app. simpl.
      rewrite Ho, (open_not_close _ Ho), Hc.
      destruct (isOpen c) eqn:Hoc; [|lia].
      apply open_not_close in Hoc. congruence.
Qed.

Lemma nonNegative_app_l (l1 l2 : list A) :
  nonNegative (l1 ++ l2) -> nonNegative l1.
Proof.
  intros H p q E. apply (H p (q ++ l2)). rewrite E. now rewrite app_assoc.
Qed.

Lemma noReturn_app_l (l1 l2 : list A) : noReturn (l1 ++ l2) -> noReturn l1.
Proof.
  intros H p c q E. apply (H p c (q ++ l2)). rewrite E.
  now rewrite <- app_assoc.
Qed.

(** With no closer ahead of its opener, what stands before the span
    holds no brace at all: the span opens at the first brace. *)
Lemma brace_free_prefix (pre : list A) :
  nonNegative pre -> noReturn pre -> depth pre = 0%Z ->
  Forall (fun c => isOpen c = false /\ isClose c = false) pre.
Proof.
  induction pre as [|x l IH] using rev_ind; intros Hnn Hnr Hd; [constructor|].
  rewrite depth_snoc in Hd.
  pose proof (Hnn l [x] eq_refl) as Hl.
  assert (Hx : isOpen x = false /\ isClose x = false).
  { destruct (isOpen x) eqn:Ho.
    - rewrite (open_not_close _ Ho) in Hd. lia.
    - destruct (isClose x) eqn:Hc; [|auto].
      exfalso. apply (Hnr l x [] eq_refl Hc). rewrite depth_snoc, Ho, Hc. lia. }
  destruct Hx as [Ho Hc]. rewrite Ho, Hc in Hd.
  apply Forall_app. split.
  - apply IH; [eapply nonNegative_app_l | eapply noReturn_app_l | lia]; eauto.
  - constructor; [auto | constructor].
Qed.

Lemma noReturn_returnsToZero (str : list A) :
  noReturn str <-> returnsToZero isOpen isClose str 0 = false.
Proof. rewrite <- scan_not_found. apply scan_returnsToZero. Qed.
End ScanFacts.

(** ** Strings as lists of characters *)

Lemma chars_append (a b : string) : chars (a +:+ b) = chars a ++ chars b.
Proof. induction a as [|c a IH]; simpl; [reflexivity | now rewrite IH]. Qed.

Lemma chars_length (s : string) : length (chars s) = String.length s.
Proof. induction s as [|c s IH]; simpl; [reflexivity | now rewrite IH]. Qed.

Lemma string_of_chars (s : string) : string_of_list_ascii (chars s) = s.
Proof. apply string_of_list_ascii_of_string. Qed.

Lemma chars_of_string (l : list ascii) : chars (string_of_list_ascii l) = l.
Proof. apply list_ascii_of_string_of_list_ascii. Qed.

Lemma openChar_closeChar (c : ascii) : openChar c = true -> closeChar c = false.
Proof.
  unfold openChar, closeChar. intros H. apply Ascii.eqb_eq in H. now subst c.
Qed.

Lemma openToken_closeToken (t : string) :
  openToken t = true -> closeToken t = false.
Proof.
  unfold openToken, closeToken. intros H. apply String.eqb_eq in H. now subst t.
Qed.

(** The three slices [handleExpressions] takes around a span. *)
Lemma slices_of_span {A : Type} (pre inner suf : list A) (o c : A) :
  let l := pre ++ o :: inner ++ c :: suf in
  let start := length pre in
  let end_ := (length pre + 1 + length inner)%nat in
  take (start - 0) (drop 0 l) = pre /\
  take (end_ - (start + 1)) (drop (start + 1) l) = inner /\
  take (length l - (end_ + 1)) (drop (end_ + 1) l) = suf /\
  ((end_ + 1 <? length l)%nat = negb (Nat.eqb (length suf) 0)).
Proof.
  intros l start end_. subst l start end_.
  repeat split.
  - rewrite Nat.sub_0_r, drop_0. apply take_app_length.
  - replace (pre ++ o :: inner ++ c :: suf)
      with ((pre ++ [o]) ++ inner ++ c :: suf) by now rewrite <- app_assoc.
    replace (length pre + 1)%nat with (length (pre ++ [o]))
      by (rewrite length_app; reflexivity).
    rewrite drop_app_length.
    replace (length (pre ++ [o]) + length inner - length (pre ++ [o]))%nat
      with (length inner) by lia.
    apply take_app_length.
  - replace (pre ++ o :: inner ++ c :: suf)
      with ((pre ++ o :: inner ++ [c]) ++ suf)
      by (rewrite <- app_assoc; simpl; now rewrite <- app_assoc).
    replace (length pre + 1 + length inner + 1)%nat
      with (length (pre ++ o :: inner ++ [c]))
      by (rewrite !length_app; simpl; rewrite length_app; simpl; lia).
    rewrite drop_app_length, length_app.
    replace (length (pre ++ o :: inner ++ [c]) + length suf
             - length (pre ++ o :: inner ++ [c]))%nat
      with (length suf) by lia.
    apply firstn_all.
  - rewrite !length_app. simpl. rewrite !length_app. simpl.
    destruct suf; simpl.
    + apply Nat.ltb_ge. lia.
    + apply Nat.ltb_lt. lia.
Qed.

Lemma string_of_list_ascii_app (a b : list ascii) :
  string_of_list_ascii (a ++ b) =
  string_of_list_ascii a +:+ string_of_list_ascii b.
Proof. induction a as [|c a IH]; simpl; [reflexivity | now rewrite IH]. Qed.

Lemma string_of_list_ascii_length (l : list ascii) :
  String.length (string_of_list_ascii l) = length l.
Proof. now rewrite <- chars_length, chars_of_string. Qed.

(** ** The splitter *)

Section Splitter.
Variable parseExpressionAt : jsValue -> option estree.

Local Abbreviation handleExpressions := (handleExpressions parseExpressionAt).
Local Abbreviation acornExpression := (acornExpression parseExpressionAt).

(** A string in which the scanner finds a span is cut around it. *)
Lemma findExpression_string_span (s : string) (start end_ : nat) :
  findExpression (VStr s) = Some (start, end_) ->
  exists prefix inner suffix,
    s = prefix +:+ "{" +:+ inner +:+ "}" +:+ suffix /\
    start = String.length prefix /\
    end_ = (start + 1 + String.length inner)%nat /\
    depth openChar closeChar (chars prefix) = 0%Z /\
    balanced openChar closeChar (chars inner) /\
    noReturn openChar closeChar (chars (prefix +:+ "{" +:+ inner)) /\
    (nonNegative openChar closeChar (chars s) ->
     Forall (fun c => openChar c = false /\ closeChar c = false)
       (chars prefix)) /\
    handleExpressions (VStr s) =
      (let* expression := acornExpression (VStr inner) in
       Ok (JsArray (literalPart prefix ++ [expression] ++ literalPart suffix))).
Proof.
  intros E. pose proof E as Hscan. simpl in Hscan.
  apply (scan_found _ _ openChar_closeChar) in Hscan
    as (pre & o & inner & c & suf & Hs & Ho & Hc & Ha & Hb & Hpre & Hin & Hnr).
  apply Ascii.eqb_eq in Ho. apply Ascii.eqb_eq in Hc. subst o c.
  exists (string_of_list_ascii pre), (string_of_list_ascii inner),
    (string_of_list_ascii suf).
  rewrite !string_of_list_ascii_length.
  assert (Hstr : s = string_of_list_ascii pre +:+ "{" +:+
                     string_of_list_ascii inner +:+ "}" +:+
                     string_of_list_ascii suf).
  { rewrite <- (string_of_chars s), Hs.
    rewrite string_of_list_ascii_app. simpl.
    rewrite string_of_list_ascii_app. reflexivity. }
  split; [exact Hstr|]. split; [exact Ha|]. split; [lia|].
  split; [now rewrite chars_of_string|].
  split; [now rewrite chars_of_string|].
  split; [|split].
  - rewrite chars_append, chars_append. simpl. rewrite !chars_of_string.
    exact Hnr.
  - rewrite chars_of_string, Hs. intros Hnn.
    apply (brace_free_prefix _ _ openChar_closeChar); auto.
    + eapply nonNegative_app_l; eauto.
    + eapply noReturn_app_l; eauto.
  - unfold handleExpressions. rewrite E. subst start end_.
    destruct (slices_of_span pre inner suf "{"%char "}"%char)
      as (Hp & Hi & Hsf & Hlt).
    rewrite <- Hs in Hp, Hi, Hsf, Hlt.
    simpl slice. unfold sliceString. simpl jsLength.
    rewrite <- chars_length. rewrite Hp, Hi, Hsf, Hlt.
    destruct (acornExpression
                (VStr (string_of_list_ascii inner))) as [x|err];
      simpl; [|reflexivity].
    destruct pre, suf; reflexivity.
Qed.

(** C1. For every input string the splitter works on the first span
    the brace-depth scan closes: the opener takes the depth from 0 to
    1, the text strictly inside is balanced, and no closer before it
    had brought the depth back to 0 (so, when no closer stands ahead of
    its opener, the span opens at the first brace of the string). The
    result is the literal prefix if not empty, the expression parsed
    from the text strictly inside the braces, and the literal suffix if
    not empty, in this order; a string without such a span is one
    literal segment. In particular
    "a{1+1}b" gives ["a", 1+1, "b"], "{x}" gives [x] and "plain" gives
    "plain". *)
Theorem handleExpressions_first_balanced_span (s : string) :
  match findExpression (VStr s) with
  | Some (start, end_) =>
      exists prefix inner suffix,
        s = prefix +:+ "{" +:+ inner +:+ "}" +:+ suffix /\
        start = String.length prefix /\
        end_ = (start + 1 + String.length inner)%nat /\
        depth openChar closeChar (chars prefix) = 0%Z /\
        balanced openChar closeChar (chars inner) /\
        noReturn openChar closeChar (chars (prefix +:+ "{" +:+ inner)) /\
        (nonNegative openChar closeChar (chars s) ->
         Forall (fun c => openChar c = false /\ closeChar c = false)
           (chars prefix)) /\
        handleExpressions (VStr s) =
          (let* expression := acornExpression (VStr inner) in
           Ok (JsArray
                 (literalPart prefix ++ [expression] ++ literalPart suffix)))
  | None =>
      noReturn openChar closeChar (chars s) /\
      handleExpressions (VStr s) = Ok (Literal (VStr s))
  end /\
  handleExpressions (VStr "a{1+1}b") =
    (let* expression := acornExpression (VStr "1+1") in
     Ok (JsArray [Literal (VStr "a"); expression; Literal (VStr "b")])) /\
  handleExpressions (VStr "{x}") =
    (let* expression := acornExpression (VStr "x") in
     Ok (JsArray [expression])) /\
  handleExpressions (VStr "plain") = Ok (Literal (VStr "plain")).
Proof.
  split; [|split; [reflexivity | split; reflexivity]].
  destruct (findExpression (VStr s)) as [[start end_]|] eqn:E.
  - now apply findExpression_string_span.
  - split.
    + apply (scan_not_found _ _ openChar_closeChar). exact E.
    + unfold handleExpressions. now rewrite E.
Qed.

(** C7. A string in which no closing brace brings the depth back to 0
    (so also every string whose depth never comes back to 0 at all,
    like "a{b") has no span: the scanner returns null and the whole
    value is one literal segment; nothing is raised. *)
Theorem handleExpressions_unbalanced_literal (s : string) :
  returnsToZero openChar closeChar (chars s) 0 = false ->
  findExpression (VStr s) = None /\
  handleExpressions (VStr s) = Ok (Literal (VStr s)).
Proof.
  intros H.
  assert (E : findExpression (VStr s) = None).
  { simpl. apply (scan_returnsToZero _ _ openChar_closeChar). exact H. }
  split; [exact E|].
  unfold handleExpressions. now rewrite E.
Qed.
End Splitter.

Lemma handleExpressions_unbalanced_literal_witness :
  returnsToZero openChar closeChar (chars "a{b") 0 = false /\
  findExpression (VStr "a{b") = None /\
  handleExpressions sampleParseExpressionAt (VStr "a{b")
  = Ok (Literal (VStr "a{b")).
Proof.
  split; [reflexivity|].
  apply (handleExpressions_unbalanced_literal sampleParseExpressionAt "a{b").
  reflexivity.
Defined.

(** ** The document tree *)

Lemma node_ind' (P : node -> Prop) :
  (forall children, Forall P children -> P (Root children)) ->
  (forall tagName properties children,
      Forall P children -> P (Element tagName properties children)) ->
  (forall tagName properties children,
      Forall P children -> P (View tagName properties children)) ->
  (forall value, P (Text value)) ->
  (forall value, P (Comment value)) ->
  P Doctype ->
  forall n, P n.
Proof.
  intros HR HE HV HT HC HD.
  fix IH 1. intros [cs|t p cs|t p cs|v|v|].
  - apply HR. induction cs; constructor; auto.
  - apply HE. induction cs; constructor; auto.
  - apply HV. induction cs; constructor; auto.
  - apply HT.
  - apply HC.
  - apply HD.
Qed.

Section Tree.
Variable parseExpressionAt : jsValue -> option estree.
Variable parse : option string -> jsValue -> option (list estree).
Variable htmlTagNames : list string.

Local Abbreviation handleExpressions := (handleExpressions parseExpressionAt).
Local Abbreviation lowerProperty := (lowerProperty parseExpressionAt).
Local Abbreviation reduceProperties := (reduceProperties parseExpressionAt).
Local Abbreviation parseProperties := (parseProperties parseExpressionAt).
Local Abbreviation handlers_element := (handlers_element parseExpressionAt).
Local Abbreviation handlers_view := (handlers_view parseExpressionAt).
Local Abbreviation toDraw := (toDraw parseExpressionAt).
Local Abbreviation flatMapToDraw := (flatMapToDraw parseExpressionAt).
Local Abbreviation visit := (visit htmlTagNames).
Local Abbreviation classify := (classify htmlTagNames).
Local Abbreviation standardTags := (standardTags htmlTagNames).
Local Abbreviation load := (load parseExpressionAt parse htmlTagNames).
Local Abbreviation extractScripts := (extractScripts parse).
Local Abbreviation parseScripts := (parseScripts parse).

(** *** The equations of toDraw *)

Lemma toDraw_Root (children : list node) :
  toDraw (Root children) =
  (let* children := flatMapToDraw children in Ok (handlers_root children)).
Proof. reflexivity. Qed.

Lemma toDraw_Element tagName properties (children : list node) :
  toDraw (Element tagName properties children) =
  (let* children := flatMapToDraw children in
   handlers_element tagName properties children).
Proof. reflexivity. Qed.

Lemma toDraw_View tagName properties (children : list node) :
  toDraw (View tagName properties children) =
  (let* _children := flatMapToDraw children in
   handlers_view tagName properties).
Proof. reflexivity. Qed.

(** *** Exceptions raised while lowering *)

Lemma handleExpressions_error (value : jsValue) (e : exn) :
  handleExpressions value = Err e -> e = SyntaxError.
Proof.
  unfold handleExpressions, acornExpression.
  destruct (findExpression value) as [[a b]|]; [|discriminate].
  destruct (parseExpressionAt _); simpl; congruence.
Qed.

Lemma lowerProperty_error key (value : jsValue) (e : exn) :
  lowerProperty key value = Err e -> e = SyntaxError.
Proof.
  unfold lowerProperty.
  destruct (handleExpressions _) as [v|e'] eqn:E; simpl.
  - destruct v; discriminate.
  - intros [= <-]. eapply handleExpressions_error; eauto.
Qed.

Lemma reduceProperties_error entries : forall acc (e : exn),
  reduceProperties entries acc = Err e -> e = SyntaxError.
Proof.
  induction entries as [|[k v] rest IH]; intros acc e; simpl; [discriminate|].
  destruct (lowerProperty k v) as [x|e'] eqn:E; simpl.
  - apply IH.
  - intros [= <-]. eapply lowerProperty_error; eauto.
Qed.

Lemma handlers_element_error tagName properties children (e : exn) :
  handlers_element tagName properties children = Err e -> expectedError e.
Proof.
  unfold handlers_element.
  destruct (String.eqb tagName "script").
  - intros [= <-]. now left.
  - destruct (parseProperties properties) as [x|e'] eqn:E; simpl;
      [discriminate|].
    intros [= <-]. right. eapply reduceProperties_error; eauto.
Qed.

Lemma handlers_view_error tagName properties (e : exn) :
  handlers_view tagName properties = Err e -> expectedError e.
Proof.
  unfold handlers_view.
  destruct (parseProperties properties) as [x|e'] eqn:E; simpl;
    [discriminate|].
  intros [= <-]. right. eapply reduceProperties_error; eauto.
Qed.

Lemma flatMapToDraw_error (children : list node) (e : exn) :
  Forall (fun n => forall e, toDraw n = Err e -> expectedError e) children ->
  flatMapToDraw children = Err e -> expectedError e.
Proof.
  induction 1 as [|c cs Hc Hcs IH]; simpl; [discriminate|].
  destruct (notEmptyLine c); [|exact IH].
  destruct (toDraw c) as [x|e'] eqn:E; simpl.
  - destruct (flatMapToDraw cs) as [y|e''] eqn:E'; simpl; [discriminate|].
    intros [= <-]. now apply IH.
  - intros [= <-]. now apply Hc.
Qed.

(** The synthesizer raises nothing but the nested-script error and the
    syntax errors of acorn. *)
Lemma toDraw_error (n : node) : forall e,
  toDraw n = Err e -> expectedError e.
Proof.
  induction n as [cs IH|t p cs IH|t p cs IH|v|v|] using node_ind'; intros e.
  - rewrite toDraw_Root.
    destruct (flatMapToDraw cs) as [x|e'] eqn:E; simpl; [discriminate|].
    intros [= <-]. eapply flatMapToDraw_error; eauto.
  - rewrite toDraw_Element.
    destruct (flatMapToDraw cs) as [x|e'] eqn:E; simpl.
    + apply handlers_element_error.
    + intros [= <-]. eapply flatMapToDraw_error; eauto.
  - rewrite toDraw_View.
    destruct (flatMapToDraw cs) as [x|e'] eqn:E; simpl.
    + apply handlers_view_error.
    + intros [= <-]. eapply flatMapToDraw_error; eauto.
  - simpl. unfold handlers_text. intros H. right.
    eapply handleExpressions_error; eauto.
  - discriminate.
  - discriminate.
Qed.

(** *** An exception below is an exception above *)

Lemma flatMapToDraw_child_error (children : list node) (child : node) :
  child ∈ children -> notEmptyLine child = true ->
  (exists e, toDraw child = Err e) ->
  exists e, flatMapToDraw children = Err e.
Proof.
  intros Hin Hkeep [e He].
  induction children as [|c cs IH]; [inversion Hin|].
  simpl. apply elem_of_cons in Hin as [<-|Hin].
  - rewrite Hkeep, He. simpl. eauto.
  - destruct (IH Hin) as [e' He'].
    destruct (notEmptyLine c); [|eauto].
    destruct (toDraw c); simpl; [|eauto].
    rewrite He'. simpl. eauto.
Qed.

Lemma toDraw_lowered_error (target n : node) :
  lowered target n ->
  (exists e, toDraw target = Err e) -> exists e, toDraw n = Err e.
Proof.
  induction 1 as [|parent child Hin Hkeep _ IH]; intros Herr; [exact Herr|].
  specialize (IH Herr).
  destruct parent as [cs|t p cs|t p cs|v|v|]; simpl in Hin;
    try (inversion Hin; fail).
  - rewrite toDraw_Root.
    destruct (flatMapToDraw_child_error cs child Hin Hkeep IH) as [e ->].
    simpl. eauto.
  - rewrite toDraw_Element.
    destruct (flatMapToDraw_child_error cs child Hin Hkeep IH) as [e ->].
    simpl. eauto.
  - rewrite toDraw_View.
    destruct (flatMapToDraw_child_error cs child Hin Hkeep IH) as [e ->].
    simpl. eauto.
Qed.

(** *** The classifier *)

Lemma childrenOf_visit imports (n : node) :
  childrenOf (visit imports n) = map (visit imports) (childrenOf n).
Proof.
  destruct n as [cs|t p cs|t p cs|v|v|]; simpl; try reflexivity.
  destruct (classify imports t); reflexivity.
Qed.

Lemma notEmptyLine_visit imports (n : node) :
  notEmptyLine (visit imports n) = notEmptyLine n.
Proof.
  destruct n as [cs|t p cs|t p cs|v|v|]; simpl; try reflexivity.
  destruct (classify imports t); reflexivity.
Qed.

Lemma lowered_visit imports (target n : node) :
  lowered target n -> lowered (visit imports target) (visit imports n).
Proof.
  induction 1 as [|parent child Hin Hkeep _ IH]; [constructor|].
  apply lowered_below with (child := visit imports child); auto.
  - rewrite childrenOf_visit. apply list_elem_of_In, in_map.
    now apply list_elem_of_In.
  - now rewrite notEmptyLine_visit.
Qed.

(** C8. The classifier is idempotent: a second pass over a classified
    tree changes nothing. A pass leaves the type of a node as it is or
    turns 'element' into 'view'; it never turns a view back. *)
Theorem visit_idempotent imports (n : node) :
  visit imports (visit imports n) = visit imports n /\
  (type (visit imports n) = type n \/
   (type n = "element" /\ type (visit imports n) = "view")).
Proof.
  split.
  - induction n as [cs IH|t p cs IH|t p cs IH|v|v|] using node_ind';
      simpl; try reflexivity.
    + f_equal. rewrite map_map. now apply map_ext_Forall.
    + destruct (classify imports t) as [klass|] eqn:E; simpl.
      * f_equal. rewrite map_map. now apply map_ext_Forall.
      * rewrite E. f_equal. rewrite map_map. now apply map_ext_Forall.
    + f_equal. rewrite map_map. now apply map_ext_Forall.
  - destruct n as [cs|t p cs|t p cs|v|v|]; simpl; auto.
    destruct (classify imports t); simpl; auto.
Qed.

(** *** Script extraction *)

Lemma extractScripts_kept (children : list node) : forall body kept body',
  extractScripts children body = Ok (kept, body') ->
  kept = filter (fun c => isScript c = false) children.
Proof.
  induction children as [|c cs IH]; intros body kept body'; simpl.
  - now intros [= <- _].
  - destruct (isScript c) eqn:E.
    + rewrite filter_cons_False by (simpl; congruence).
      destruct (parseScripts _ _ _) as [b|e]; simpl; [|discriminate].
      apply IH.
    + rewrite filter_cons_True by (simpl; congruence).
      destruct (extractScripts cs body) as [[k b]|e] eqn:E'; simpl;
        [|discriminate].
      intros [= <- _]. f_equal. eapply IH; eauto.
Qed.

Lemma parseScripts_error sourceType scripts : forall body e,
  parseScripts sourceType scripts body = Err e -> e = SyntaxError.
Proof.
  induction scripts as [|c cs IH]; intros body e; simpl; [discriminate|].
  destruct (parse _ _); [apply IH | congruence].
Qed.

Lemma extractScripts_error (children : list node) : forall body e,
  extractScripts children body = Err e -> e = SyntaxError.
Proof.
  induction children as [|c cs IH]; intros body e; simpl; [discriminate|].
  destruct (isScript c).
  - destruct (parseScripts _ _ _) as [b|e'] eqn:E; simpl.
    + apply IH.
    + intros [= <-]. eapply parseScripts_error; eauto.
  - destruct (extractScripts cs body) as [x|e'] eqn:E; simpl; [discriminate|].
    intros [= <-]. eapply IH; eauto.
Qed.

(** *** The whole compilation *)

Lemma load_error (children : list node) (e : exn) :
  load children = Err e -> expectedError e.
Proof.
  unfold load.
  destruct (extractScripts children []) as [x|e'] eqn:E; cbn [bind].
  - destruct (toDraw _) as [d|e''] eqn:E'; cbn [bind]; [discriminate|].
    intros [= <-]. eapply toDraw_error; eauto.
  - intros [= <-]. right. eapply extractScripts_error; eauto.
Qed.

(** If lowering a node fails once the tree is classified, and the
    synthesizer gets to that node from the top-level children that are not
    script blocks, the compilation fails. *)
Lemma load_lowered_error (children : list node) (target : node) :
  lowered target (Root (filter (fun c => isScript c = false) children)) ->
  (forall imports, exists e, toDraw (visit imports target) = Err e) ->
  exists e, load children = Err e /\ expectedError e.
Proof.
  intros Hlow Herr.
  destruct (load children) as [body|e] eqn:E.
  - exfalso. unfold load in E.
    destruct (extractScripts children []) as [[kept body']|e'] eqn:Ex;
      cbn [bind fst snd] in E; [|discriminate].
    apply extractScripts_kept in Ex. subst kept.
    set (imports := collectImports (addElImport body')) in *.
    apply (lowered_visit imports) in Hlow.
    destruct (toDraw_lowered_error _ _ Hlow (Herr imports)) as [e He].
    cbv zeta in E. fold imports in E. rewrite He in E. discriminate.
  - exists e. split; [reflexivity|]. eapply load_error; eauto.
Qed.

(** *** Children *)

Lemma flatMapToDraw_app (l1 l2 : list node) :
  flatMapToDraw (l1 ++ l2) =
  (let* drawn1 := flatMapToDraw l1 in
   let* drawn2 := flatMapToDraw l2 in
   Ok (drawn1 ++ drawn2)).
Proof.
  induction l1 as [|c cs IH]; simpl.
  - destruct (flatMapToDraw l2); reflexivity.
  - destruct (notEmptyLine c); [|exact IH].
    destruct (toDraw c) as [d|e]; simpl; [|reflexivity].
    rewrite IH. destruct (flatMapToDraw cs) as [d1|e]; simpl; [|reflexivity].
    destruct (flatMapToDraw l2) as [d2|e]; simpl; [|reflexivity].
    now rewrite app_assoc.
Qed.

(** A kept child that lowers to [drawn] puts [flat drawn] between what
    its elder and its younger siblings give. *)
Lemma flatMapToDraw_middle (before after : list node) (n : node) drawn :
  notEmptyLine n = true -> toDraw n = Ok drawn ->
  flatMapToDraw (before ++ n :: after) =
  (let* drawn1 := flatMapToDraw before in
   let* drawn2 := flatMapToDraw after in
   Ok (drawn1 ++ flat drawn ++ drawn2)).
Proof.
  intros Hkeep Hn. rewrite flatMapToDraw_app. simpl. rewrite Hkeep, Hn. simpl.
  destruct (flatMapToDraw before) as [d1|e]; simpl; [|reflexivity].
  destruct (flatMapToDraw after) as [d2|e]; reflexivity.
Qed.

(** *** Attributes *)

Lemma reduceProperties_member entries : forall acc key (value : jsValue),
  (key, value) ∈ entries ->
  lowerProperty key value = Err SyntaxError ->
  reduceProperties entries acc = Err SyntaxError.
Proof.
  induction entries as [|[k v] rest IH]; intros acc key value Hin Herr;
    [inversion Hin|].
  simpl. apply elem_of_cons in Hin as [[= <- <-]|Hin].
  - now rewrite Herr.
  - destruct (lowerProperty k v) as [x|e] eqn:E; simpl.
    + eapply IH; eauto.
    + f_equal. eapply lowerProperty_error; eauto.
Qed.

(** *** Empty braces *)

Lemma handleExpressions_empty_braces (value : string) (start : nat) :
  parseExpressionAt (VStr "") = None ->
  findExpression (VStr value) = Some (start, S start) ->
  handleExpressions (VStr value) = Err SyntaxError.
Proof.
  intros Hparse Hfind.
  destruct (findExpression_string_span parseExpressionAt _ _ _ Hfind)
    as (prefix & inner & suffix & _ & _ & Hend & _ & _ & _ & _ & ->).
  assert (inner = "") as -> by (destruct inner; simpl in Hend; [easy | lia]).
  unfold acornExpression. now rewrite Hparse.
Qed.

Lemma toDraw_carrier_error (value : string) (start : nat) (n : node) imports :
  parseExpressionAt (VStr "") = None ->
  findExpression (VStr value) = Some (start, S start) ->
  carries value n ->
  exists e, toDraw (visit imports n) = Err e.
Proof.
  intros Hparse Hfind Hn.
  pose proof (handleExpressions_empty_braces _ _ Hparse Hfind) as Herr.
  assert (Hprops : forall properties,
    (exists key v, (key, v) ∈ properties /\ joinClassName key v = VStr value) ->
    parseProperties properties = Err SyntaxError).
  { intros properties (key & v & Hin & Hjoin).
    eapply reduceProperties_member; eauto.
    unfold lowerProperty. now rewrite Hjoin, Herr. }
  destruct n as [cs|t p cs|t p cs|v|v|]; simpl in Hn; try contradiction.
  - assert (Hview : forall klass,
      exists e, toDraw (View klass p (map (visit imports) cs)) = Err e).
    { intros klass. rewrite toDraw_View.
      destruct (flatMapToDraw _); simpl; [|eauto].
      unfold handlers_view. rewrite (Hprops p Hn). simpl. eauto. }
    change (visit imports (Element t p cs)) with
      (match classify imports t with
       | Some klass => View klass p (map (visit imports) cs)
       | None => Element t p (map (visit imports) cs)
       end).
    destruct (classify imports t); [apply Hview|].
    rewrite toDraw_Element.
    destruct (flatMapToDraw _); simpl; [|eauto].
    unfold handlers_element.
    destruct (String.eqb t "script"); [eauto|].
    rewrite (Hprops p Hn). simpl. eauto.
  - change (visit imports (View t p cs)) with
      (View t p (map (visit imports) cs)).
    rewrite toDraw_View.
    destruct (flatMapToDraw _); simpl; [|eauto].
    unfold handlers_view. rewrite (Hprops p Hn). simpl. eauto.
  - subst v. simpl. unfold handlers_text. eauto.
Qed.

(** C10, as the code has it. A text value, or an attribute value that
    is a string or a class list (joined with spaces), whose first span
    is the empty pair of braces is not kept as literal text: the
    splitter hands the empty string to the expression parser, which
    rejects it, so the splitter raises the syntax error; so does
    lowering the text node or the attributes that hold the value, and
    the compilation of any document in which the synthesizer gets to
    that node returns no module. *)
Theorem empty_braces_abort_compilation (value : string) (start : nat) :
  parseExpressionAt (VStr "") = None ->
  findExpression (VStr value) = Some (start, S start) ->
  handleExpressions (VStr value) = Err SyntaxError /\
  toDraw (Text value) = Err SyntaxError /\
  (forall properties key v,
      (key, v) ∈ properties -> joinClassName key v = VStr value ->
      parseProperties properties = Err SyntaxError) /\
  (forall children target,
      carries value target ->
      lowered target (Root (filter (fun c => isScript c = false) children)) ->
      exists e, load children = Err e /\ expectedError e).
Proof.
  intros Hparse Hfind.
  pose proof (handleExpressions_empty_braces _ _ Hparse Hfind) as Herr.
  split; [exact Herr|]. split; [exact Herr|]. split.
  - intros properties key v Hin Hjoin.
    eapply reduceProperties_member; eauto.
    unfold lowerProperty. now rewrite Hjoin, Herr.
  - intros children target Hcar Hlow.
    apply load_lowered_error with (target := target); auto.
    intros imports. eapply toDraw_carrier_error; eauto.
Qed.

(** *** Script elements met by the synthesizer *)




(** *** Nodes without a handler *)

(** C6, as the code has it. A node whose type has no handler lowers to
    null and nothing is raised; as a child it is kept, and null takes
    its place among the lowered children of its parent. *)
Theorem unhandled_node_lowers_to_null (n : node) :
  hasHandler (type n) = false ->
  toDraw n = Ok JsNull /\
  forall before after,
    flatMapToDraw (before ++ n :: after) =
    (let* drawn1 := flatMapToDraw before in
     let* drawn2 := flatMapToDraw after in
     Ok (drawn1 ++ JsNull :: drawn2)).
Proof.
  intros H.
  assert (Hn : toDraw n = Ok JsNull /\ notEmptyLine n = true)
    by (destruct n; try discriminate H; split; reflexivity).
  destruct Hn as [Hn Hkeep]. split; [exact Hn|].
  intros before after.
  now rewrite (flatMapToDraw_middle before after n JsNull Hkeep Hn).
Qed.

(** *** Text nodes *)

(** C3, as the code has it. A text node whose value has no span lowers
    to one string literal. A text node whose value splits into the
    segments [segments] lowers to the plain array of these segments,
    and the parent splices them, in order, among its lowered children:
    no concatenation call is built for text. *)
Theorem text_segments_are_spliced (value : string) :
  (findExpression (VStr value) = None ->
   toDraw (Text value) = Ok (Literal (VStr value))) /\
  (forall segments,
      handleExpressions (VStr value) = Ok (JsArray segments) ->
      toDraw (Text value) = Ok (JsArray segments) /\
      toDraw (Text value) <> Ok (joinCall segments) /\
      forall before after,
        flatMapToDraw (before ++ Text value :: after) =
        (let* drawn1 := flatMapToDraw before in
         let* drawn2 := flatMapToDraw after in
         Ok (drawn1 ++ segments ++ drawn2))).
Proof.
  split.
  - intros H. simpl. unfold handlers_text, handleExpressions.
    now rewrite H.
  - intros segments H.
    assert (Ht : toDraw (Text value) = Ok (JsArray segments)) by exact H.
    split; [exact Ht|]. split; [rewrite Ht; discriminate|].
    intros before after.
    apply (flatMapToDraw_middle before after (Text value) (JsArray segments));
      [|exact Ht].
    simpl. destruct (String.eqb_spec value newline) as [->|]; [|reflexivity].
    discriminate H.
Qed.

(** *** The table of imports *)

Lemma registerSpecifier_inv imports (sp : specifier) :
  registryInv imports -> registryInv (registerSpecifier imports sp).
Proof.
  intros H key name. unfold registerSpecifier.
  destruct (startsUpper (localName sp)) eqn:E; [|apply H].
  rewrite lookup_insert. case_decide as Hk.
  - intros [= <-]. auto.
  - apply H.
Qed.

Lemma registerStatement_inv imports (n : estree) :
  registryInv imports -> registryInv (registerStatement imports n).
Proof.
  destruct n; simpl; auto.
  revert imports. induction specifiers as [|sp sps IH]; simpl; auto.
  intros imports H. apply IH. now apply registerSpecifier_inv.
Qed.

Lemma collectImports_inv (body : list estree) :
  registryInv (collectImports body).
Proof.
  unfold collectImports.
  assert (H : registryInv (∅ : gmap string string))
    by (intros k n; rewrite lookup_empty; discriminate).
  revert H. generalize (∅ : gmap string string).
  induction body as [|st rest IH]; simpl; auto.
  intros imports H. apply IH. now apply registerStatement_inv.
Qed.

(** C4, as the code has it. An element whose tag name, as it stands in
    the tree, is not a standard tag and is a key of the table of
    imports becomes a view named by the table's entry, the imported
    identifier in its own spelling. It is lowered to [new] of that
    identifier with one argument, the object of the lowered
    attributes: its children are lowered (an exception there is
    raised) and the result is dropped. It is never lowered to a call
    of [el]. *)
Theorem imported_tag_is_constructed (body : list estree) (tagName : string)
  properties (children : list node) (klass : string) :
  standardTags tagName = false ->
  collectImports body !! tagName = Some klass ->
  let imports := collectImports body in
  let classified := visit imports (Element tagName properties children) in
  toLowerCase klass = tagName /\
  classified = View klass properties (map (visit imports) children) /\
  toDraw classified =
    (let* _children := flatMapToDraw (map (visit imports) children) in
     let* lowered := parseProperties properties in
     Ok (NewExpression (Identifier klass) [ObjectExpression lowered])) /\
  forall drawn, toDraw classified = Ok drawn ->
    exists lowered,
      parseProperties properties = Ok lowered /\
      drawn = NewExpression (Identifier klass) [ObjectExpression lowered].
Proof.
  intros Hstd Hget imports classified.
  destruct (collectImports_inv body _ _ Hget) as [Hlow Hup].
  assert (Hc : classified
               = View klass properties (map (visit imports) children)).
  { subst classified. simpl. unfold classify.
    fold imports in Hget. rewrite Hstd, Hget.
    destruct klass; [discriminate Hup | reflexivity]. }
  split; [exact Hlow|]. split; [exact Hc|]. rewrite Hc, toDraw_View.
  split; [reflexivity|].
  intros drawn. destruct (flatMapToDraw _); simpl; [|discriminate].
  unfold handlers_view.
  destruct (parseProperties properties) as [l|e]; simpl; [|discriminate].
  intros [= <-]. eauto.
Qed.

(** *** Attribute lowering *)

Lemma objSet_fresh (acc : list (string * estree)) key value :
  key ∉ map fst acc -> objSet acc key value = acc ++ [(key, value)].
Proof.
  induction acc as [|[k old] rest IH]; simpl; [reflexivity|].
  intros Hnot. apply not_elem_of_cons in Hnot as [Hne Hnot].
  destruct (String.eqb_spec k key) as [->|_]; [contradiction|].
  now rewrite IH.
Qed.

Lemma reduceProperties_spec entries : forall acc lowered,
  NoDup (map fst acc ++ map fst entries) ->
  reduceProperties entries acc = Ok lowered ->
  exists added,
    lowered = acc ++ added /\ map fst added = map fst entries /\
    forall key (value : jsValue), (key, value) ∈ entries ->
      exists x, lowerProperty key value = Ok x /\ (key, x) ∈ added.
Proof.
  induction entries as [|[k v] rest IH]; intros acc lowered Hnd; simpl.
  - intros [= <-]. exists []. rewrite app_nil_r. repeat split; auto.
    intros key value Hin. inversion Hin.
  - destruct (lowerProperty k v) as [x|e] eqn:E; simpl; [|discriminate].
    assert (Hfresh : k ∉ map fst acc).
    { apply NoDup_app in Hnd as (_ & Hdis & _). intros Hin.
      apply (Hdis k Hin). simpl. apply elem_of_cons. now left. }
    rewrite objSet_fresh by assumption. intros H.
    apply IH in H as (added & -> & Hkeys & Hall).
    + exists ((k, x) :: added). rewrite <- app_assoc. simpl.
      split; [reflexivity|]. split; [now rewrite Hkeys|].
      intros key value Hin. apply elem_of_cons in Hin as [[= -> ->]|Hin].
      * exists x. split; [exact E|]. apply elem_of_cons. now left.
      * destruct (Hall key value Hin) as (y & Hy & Hiny).
        exists y. split; [exact Hy|]. apply elem_of_cons. now right.
    + rewrite map_app. simpl. rewrite <- app_assoc. exact Hnd.
Qed.

(** The splitter returns the array of segments or the bare literal. *)
Lemma handleExpressions_shape (value : jsValue) r :
  handleExpressions value = Ok r ->
  (findExpression value = None /\ r = Literal value) \/
  (exists segments, r = JsArray segments).
Proof.
  unfold handleExpressions.
  destruct (findExpression value) as [[a b]|].
  - destruct (acornExpression _ _); simpl; [|discriminate].
    intros [= <-]. right. eauto.
  - intros [= <-]. now left.
Qed.

(** C9. Lowering the attributes of an element or of a view keeps their
    names and order. For each attribute a class list is first joined
    with spaces into one string; then the splitter runs on the value:
    without a span, the lowered value is the literal of the value;
    with segments, it is the call [[segments].join('')]: the method
    [join] of the array of all the segments, in order, called with the
    empty string. The object built from
    these lowered values is the one both kinds of node pass on. *)
Theorem attributes_joined_then_split
  (properties : list (string * jsValue)) (lowered : list (string * estree)) :
  NoDup (map fst properties) ->
  parseProperties properties = Ok lowered ->
  map fst lowered = map fst properties /\
  (forall key value, (key, value) ∈ properties ->
     let joined := joinClassName key value in
     (forall tokens, value = VList tokens -> key = "className" ->
        joined = VStr (String.concat " " tokens)) /\
     ((findExpression joined = None /\
       handleExpressions joined = Ok (Literal joined) /\
       (key, Literal joined) ∈ lowered) \/
      (exists segments,
         handleExpressions joined = Ok (JsArray segments) /\
         (key,
          CallExpression
            (MemberExpression (ArrayExpression segments) (Identifier "join"))
            [Literal (VStr "")]) ∈ lowered))) /\
  (forall tagName (children : list node) drawn,
     toDraw (Element tagName properties children) = Ok drawn ->
     exists items,
       drawn = CallExpression (Identifier "el")
                 [Literal (VStr tagName); ObjectExpression lowered;
                  ArrayExpression items]) /\
  (forall tagName (children : list node) drawn,
     toDraw (View tagName properties children) = Ok drawn ->
     drawn = NewExpression (Identifier tagName) [ObjectExpression lowered]).
Proof.
  intros Hnd Hparse. pose proof Hparse as Hred.
  apply reduceProperties_spec in Hred as (added & -> & Hkeys & Hall);
    [|exact Hnd].
  change ([] ++ added) with added in *.
  split; [exact Hkeys|]. split; [|split].
  - intros key value Hin joined. split.
    + intros tokens -> ->. reflexivity.
    + destruct (Hall key value Hin) as (x & Hx & Hinx).
      unfold lowerProperty in Hx. fold joined in Hx.
      destruct (handleExpressions joined) as [r|e] eqn:E; simpl in Hx;
        [|discriminate].
      destruct (handleExpressions_shape _ _ E) as [[Hnone ->]|[segments ->]].
      * left. injection Hx as <-. auto.
      * right. injection Hx as <-. eauto.
  - intros tagName children drawn. rewrite toDraw_Element.
    destruct (flatMapToDraw children) as [items|e]; simpl; [|discriminate].
    unfold handlers_element.
    destruct (String.eqb tagName "script"); [discriminate|].
    rewrite Hparse. simpl. intros [= <-]. eauto.
  - intros tagName children drawn. rewrite toDraw_View.
    destruct (flatMapToDraw children) as [items|e]; simpl; [|discriminate].
    unfold handlers_view. rewrite Hparse. simpl. now intros [= <-].
Qed.
End Tree.

(** ** The { el } import *)

Lemma importsFrom_app source (a b : list estree) :
  importsFrom source (a ++ b)
  = (importsFrom source a + importsFrom source b)%nat.
Proof. induction a as [|n a IH]; simpl; [reflexivity | rewrite IH; lia]. Qed.

Lemma elImports_app (a b : list estree) :
  elImports (a ++ b) = (elImports a + elImports b)%nat.
Proof. induction a as [|n a IH]; simpl; [reflexivity | rewrite IH; lia]. Qed.

Lemma elSpecifiers_other (n : estree) :
  isImportFrom "overture/dom" n = false -> elSpecifiers n = 0%nat.
Proof. destruct n; simpl; try reflexivity. now intros ->. Qed.

Lemma elImports_none (body : list estree) :
  importsFrom "overture/dom" body = 0%nat -> elImports body = 0%nat.
Proof.
  induction body as [|n rest IH]; simpl; [reflexivity|].
  destruct (isImportFrom "overture/dom" n) eqn:E; [discriminate|].
  intros H. rewrite elSpecifiers_other by assumption. now apply IH.
Qed.

Lemma isImportFrom_inv (n : estree) :
  isImportFrom "overture/dom" n = true ->
  exists specifiers, n = ImportDeclaration specifiers "overture/dom".
Proof.
  destruct n; simpl; try discriminate.
  intros H. apply String.eqb_eq in H. subst. eauto.
Qed.

Lemma findOvertureDomImport_skip (n : estree) (rest : list estree) :
  isImportFrom "overture/dom" n = false ->
  findOvertureDomImport (n :: rest) =
  option_map (cons n) (findOvertureDomImport rest).
Proof. destruct n; simpl; try reflexivity. now intros ->. Qed.

Lemma findOvertureDomImport_None (body : list estree) :
  importsFrom "overture/dom" body = 0%nat ->
  findOvertureDomImport body = None.
Proof.
  induction body as [|n rest IH]; [reflexivity|]. simpl importsFrom.
  destruct (isImportFrom "overture/dom" n) eqn:E; [discriminate|].
  intros H. rewrite findOvertureDomImport_skip by assumption.
  now rewrite IH.
Qed.

(** The statement [find] stops at is the first import from
    'overture/dom'; it alone may change. *)
Lemma findOvertureDomImport_first (before after : list estree) specifiers :
  importsFrom "overture/dom" before = 0%nat ->
  findOvertureDomImport
    (before ++ ImportDeclaration specifiers "overture/dom" :: after) =
  Some (before ++
        ImportDeclaration
          (if existsb isElImport specifiers then specifiers
           else specifiers ++ [elSpecifier]) "overture/dom" :: after).
Proof.
  induction before as [|n rest IH]; cbn [app importsFrom].
  - intros _. simpl. now destruct (existsb isElImport specifiers).
  - destruct (isImportFrom "overture/dom" n) eqn:E; [discriminate|].
    intros H. rewrite findOvertureDomImport_skip by assumption.
    now rewrite IH.
Qed.

(** A body with an import from 'overture/dom' has a first one. *)
Lemma first_overture_dom_import (body : list estree) :
  importsFrom "overture/dom" body <> 0%nat ->
  exists before specifiers after,
    body = before ++ ImportDeclaration specifiers "overture/dom" :: after /\
    importsFrom "overture/dom" before = 0%nat.
Proof.
  induction body as [|n rest IH]; simpl; [congruence|].
  destruct (isImportFrom "overture/dom" n) eqn:E.
  - intros _. apply isImportFrom_inv in E as [specifiers ->].
    exists [], specifiers, rest. auto.
  - intros H. destruct (IH H) as (before & specifiers & after & -> & Hb).
    exists (n :: before), specifiers, after. simpl. rewrite E. auto.
Qed.

Lemma existsb_filter_length {A : Type} (f : A -> bool) (l : list A) :
  existsb f l = negb (Nat.eqb (length (List.filter f l)) 0).
Proof.
  induction l as [|x l IH]; simpl; [reflexivity|].
  destruct (f x); simpl; [reflexivity | exact IH].
Qed.

Lemma filter_importsEl_snoc (specifiers : list specifier) :
  length (List.filter importsEl (specifiers ++ [elSpecifier])) =
  S (length (List.filter importsEl specifiers)).
Proof. rewrite List.filter_app, length_app. simpl. lia. Qed.

(** On specifiers named by identifiers the test of the code,
    [s.imported.name === 'el'], finds every import of [el]. *)
Lemma isElImport_importsEl (specifiers : list specifier) :
  forallb namedByIdentifier specifiers = true ->
  existsb isElImport specifiers = existsb importsEl specifiers.
Proof.
  induction specifiers as [|sp rest IH]; simpl; [reflexivity|].
  intros H. apply andb_true_iff in H as [Hsp Hrest]. rewrite (IH Hrest).
  f_equal. destruct sp as [[name|value] local|local|local];
    [reflexivity | discriminate | reflexivity | reflexivity].
Qed.

Lemma identifierNamed_app (a b : list estree) :
  identifierNamed (a ++ b) = identifierNamed a && identifierNamed b.
Proof. apply forallb_app. Qed.

(** C2, as the code has it. The step merges no import statements: those
    of every source are as many after it as before, but for one more
    from 'overture/dom' when there was none; so a module with at most
    one import per source stays so, and one with more keeps them. When
    the script blocks have no import from 'overture/dom' the import of
    [el] is put at the very front; when they have exactly one, naming
    its imports by identifiers, [el] is added at the end of its
    specifiers, and only if it is not among them. In both cases, if [el]
    was imported at most once it is now imported exactly once. *)
Theorem addElImport_ensures_el (body : list estree) :
  (forall source,
      importsFrom source (addElImport body) =
      (importsFrom source body +
       (if String.eqb source "overture/dom" &&
           Nat.eqb (importsFrom "overture/dom" body) 0
        then 1 else 0))%nat) /\
  ((forall source, (importsFrom source body <= 1)%nat) ->
   forall source, (importsFrom source (addElImport body) <= 1)%nat) /\
  (importsFrom "overture/dom" body = 0%nat ->
   addElImport body = ImportDeclaration [elSpecifier] "overture/dom" :: body) /\
  (forall before specifiers after,
      body = before ++ ImportDeclaration specifiers "overture/dom" :: after ->
      importsFrom "overture/dom" before = 0%nat ->
      importsFrom "overture/dom" after = 0%nat ->
      forallb namedByIdentifier specifiers = true ->
      addElImport body =
      before ++
      ImportDeclaration
        (if existsb importsEl specifiers then specifiers
         else specifiers ++ [elSpecifier]) "overture/dom" :: after) /\
  ((importsFrom "overture/dom" body <= 1)%nat ->
   identifierNamed body = true -> (elImports body <= 1)%nat ->
   elImports (addElImport body) = 1%nat).
Proof.
  assert (Hfront : importsFrom "overture/dom" body = 0%nat ->
    addElImport body = ImportDeclaration [elSpecifier] "overture/dom" :: body).
  { intros H. unfold addElImport. now rewrite findOvertureDomImport_None. }
  assert (Hfirst : forall before specifiers after,
    body = before ++ ImportDeclaration specifiers "overture/dom" :: after ->
    importsFrom "overture/dom" before = 0%nat ->
    addElImport body =
    before ++
    ImportDeclaration
      (if existsb isElImport specifiers then specifiers
       else specifiers ++ [elSpecifier]) "overture/dom" :: after).
  { intros before specifiers after -> H. unfold addElImport.
    now rewrite findOvertureDomImport_first. }
  assert (Hcount : forall source,
    importsFrom source (addElImport body) =
    (importsFrom source body +
     (if String.eqb source "overture/dom" &&
         Nat.eqb (importsFrom "overture/dom" body) 0
      then 1 else 0))%nat).
  { intros source.
    destruct (Nat.eqb_spec (importsFrom "overture/dom" body) 0) as [Hz|Hnz].
    - rewrite (Hfront Hz). cbn [importsFrom isImportFrom].
      rewrite (String.eqb_sym "overture/dom" source), andb_true_r.
      destruct (String.eqb source "overture/dom"); lia.
    - destruct (first_overture_dom_import body Hnz)
        as (before & specifiers & after & E & Hb).
      rewrite (Hfirst _ _ _ E Hb), E, andb_false_r, !importsFrom_app.
      simpl. lia. }
  split; [exact Hcount|]. split; [|split; [exact Hfront|split]].
  - intros Hone source. rewrite Hcount. specialize (Hone source).
    destruct (String.eqb_spec source "overture/dom") as [->|_]; simpl; [|lia].
    destruct (Nat.eqb_spec (importsFrom "overture/dom" body) 0); lia.
  - intros before specifiers after E Hb _ Hid.
    rewrite (Hfirst _ _ _ E Hb). now rewrite (isElImport_importsEl _ Hid).
  - intros Hone Hid Hel.
    destruct (Nat.eq_dec (importsFrom "overture/dom" body) 0) as [Hz|Hnz].
    + rewrite (Hfront Hz). simpl. now rewrite (elImports_none _ Hz).
    + destruct (first_overture_dom_import body Hnz)
        as (before & specifiers & after & E & Hb).
      rewrite (Hfirst _ _ _ E Hb).
      assert (Hafter : elImports after = 0%nat).
      { apply elImports_none. rewrite E, importsFrom_app in Hone.
        simpl in Hone. lia. }
      assert (Hsp : forallb namedByIdentifier specifiers = true).
      { rewrite E, identifierNamed_app in Hid.
        apply andb_true_iff in Hid as [_ Hid]. simpl in Hid.
        now apply andb_true_iff in Hid as [Hid _]. }
      rewrite E, !elImports_app, (elImports_none _ Hb) in Hel.
      rewrite !elImports_app, (elImports_none _ Hb).
      simpl in Hel |- *. rewrite Hafter in *.
      rewrite (isElImport_importsEl _ Hsp), existsb_filter_length.
      destruct (length (List.filter importsEl specifiers)) eqn:El; simpl.
      * rewrite filter_importsEl_snoc, El. lia.
      * rewrite El. lia.
Qed.

(** ** The statements at concrete inputs *)

(** C2 at [import Foo from './Foo.js'], the module of one script block:
    the import of [el] is put in front and is the only one. *)
Lemma addElImport_ensures_el_witness :
  addElImport [ImportDeclaration [ImportDefaultSpecifier "Foo"] "./Foo.js"]
  = [ImportDeclaration [elSpecifier] "overture/dom";
     ImportDeclaration [ImportDefaultSpecifier "Foo"] "./Foo.js"] /\
  elImports
    (addElImport [ImportDeclaration [ImportDefaultSpecifier "Foo"] "./Foo.js"])
  = 1%nat.
Proof.
  destruct (addElImport_ensures_el
              [ImportDeclaration [ImportDefaultSpecifier "Foo"] "./Foo.js"])
    as (_ & _ & Hfront & _ & Hone).
  split.
  - apply Hfront. reflexivity.
  - apply Hone; [simpl; lia | reflexivity | simpl; lia].
Defined.

(** The step merges nothing: the two imports from './x.js' that a script
    block declares are still two statements of the module. *)
Lemma addElImport_keeps_every_import :
  addElImport
    [ImportDeclaration [ImportSpecifier (IdentifierName "a") "a"] "./x.js";
     ImportDeclaration [ImportSpecifier (IdentifierName "b") "b"] "./x.js"]
  = [ImportDeclaration [elSpecifier] "overture/dom";
     ImportDeclaration [ImportSpecifier (IdentifierName "a") "a"] "./x.js";
     ImportDeclaration [ImportSpecifier (IdentifierName "b") "b"] "./x.js"] /\
  importsFrom "./x.js"
    (addElImport
       [ImportDeclaration [ImportSpecifier (IdentifierName "a") "a"] "./x.js";
        ImportDeclaration [ImportSpecifier (IdentifierName "b") "b"] "./x.js"])
  = 2%nat /\
  ~ (importsFrom "./x.js"
       (addElImport
          [ImportDeclaration [ImportSpecifier (IdentifierName "a") "a"]
             "./x.js";
           ImportDeclaration [ImportSpecifier (IdentifierName "b") "b"]
             "./x.js"]) <= 1)%nat.
Proof. repeat split; try reflexivity. simpl. lia. Qed.

(** C3 at the text "a{x}b". *)
Lemma text_segments_are_spliced_witness :
  toDraw sampleParseExpressionAt (Text "a{x}b")
  = Ok (JsArray [Literal (VStr "a"); Identifier "x"; Literal (VStr "b")]) /\
  flatMapToDraw sampleParseExpressionAt [Text "hello"; Text "a{x}b"]
  = Ok [Literal (VStr "hello");
        Literal (VStr "a"); Identifier "x"; Literal (VStr "b")].
Proof.
  destruct (text_segments_are_spliced sampleParseExpressionAt "a{x}b")
    as [_ H].
  destruct (H [Literal (VStr "a"); Identifier "x"; Literal (VStr "b")]
              eq_refl) as (Ht & _ & Hsplice).
  split; [exact Ht|]. exact (Hsplice [Text "hello"] []).
Defined.

(** The text "a{x}b" lowers to three segments, not to the call that the
    attribute title="a{x}b" lowers to, and the paragraph around it gets
    three children. *)
Lemma text_is_not_concatenated :
  toDraw sampleParseExpressionAt (Text "a{x}b")
  = Ok (JsArray [Literal (VStr "a"); Identifier "x"; Literal (VStr "b")]) /\
  lowerProperty sampleParseExpressionAt "title" (VStr "a{x}b")
  = Ok (joinCall [Literal (VStr "a"); Identifier "x"; Literal (VStr "b")]) /\
  toDraw sampleParseExpressionAt (Text "a{x}b")
  <> Ok (joinCall [Literal (VStr "a"); Identifier "x"; Literal (VStr "b")]) /\
  toDraw sampleParseExpressionAt (Element "p" [] [Text "a{x}b"])
  = Ok (CallExpression (Identifier "el")
          [Literal (VStr "p"); ObjectExpression [];
           ArrayExpression
             [Literal (VStr "a"); Identifier "x"; Literal (VStr "b")]]).
Proof. repeat split; try reflexivity. discriminate. Qed.

(** C4 at the tag foo with [Foo] imported. *)
Lemma imported_tag_is_constructed_witness :
  visit sampleTagNames
    (collectImports [ImportDeclaration [ImportDefaultSpecifier "Foo"] "./Foo.js"])
    (Element "foo" [("attr", VStr "1")] [])
  = View "Foo" [("attr", VStr "1")] [] /\
  toDraw sampleParseExpressionAt (View "Foo" [("attr", VStr "1")] [])
  = Ok (NewExpression (Identifier "Foo")
          [ObjectExpression [("attr", Literal (VStr "1"))]]).
Proof.
  destruct (imported_tag_is_constructed sampleParseExpressionAt sampleTagNames
              [ImportDeclaration [ImportDefaultSpecifier "Foo"] "./Foo.js"]
              "foo" [("attr", VStr "1")] [] "Foo" eq_refl eq_refl)
    as (_ & Hview & Hdraw & _).
  split; [exact Hview|]. rewrite Hview in Hdraw. exact Hdraw.
Defined.

(** The tag clipPath, the spelling the HTML parser gives to that SVG
    element, is no standard tag, and lowercased it is a key of the table
    made from [import ClipPath from './ClipPath.js']; the lookup uses the
    tag name as it is, finds nothing, and the element is built by [el]. *)
Lemma clipPath_is_built_by_el :
  standardTags sampleTagNames "clipPath" = false /\
  collectImports
    [ImportDeclaration [ImportDefaultSpecifier "ClipPath"] "./ClipPath.js"]
    !! toLowerCase "clipPath" = Some "ClipPath" /\
  visit sampleTagNames
    (collectImports
       [ImportDeclaration [ImportDefaultSpecifier "ClipPath"] "./ClipPath.js"])
    (Element "clipPath" [("id", VStr "c")] [])
  = Element "clipPath" [("id", VStr "c")] [] /\
  load sampleParseExpressionAt sampleParse sampleTagNames
    [Element "script" [("type", VStr "module")]
       [Text "import ClipPath from './ClipPath.js'"];
     Element "clipPath" [("id", VStr "c")] []]
  = Ok [ImportDeclaration [elSpecifier] "overture/dom";
        ImportDeclaration [ImportDefaultSpecifier "ClipPath"] "./ClipPath.js";
        handlers_root
          [CallExpression (Identifier "el")
             [Literal (VStr "clipPath");
              ObjectExpression [("id", Literal (VStr "c"))];
              ArrayExpression []]]].
Proof. repeat split; vm_compute; reflexivity. Qed.



(** C6 at a comment. *)
Lemma unhandled_node_lowers_to_null_witness :
  hasHandler (type (Comment "note")) = false /\
  toDraw sampleParseExpressionAt (Comment "note") = Ok JsNull.
Proof.
  split; [reflexivity|].
  apply (unhandled_node_lowers_to_null sampleParseExpressionAt
           (Comment "note")).
  reflexivity.
Defined.

(** A comment raises nothing: it lowers to null, and the document made of
    a paragraph that holds a comment compiles to a module whose paragraph
    has null for a child. *)
Lemma comment_compiles_to_null :
  toDraw sampleParseExpressionAt (Comment "note") = Ok JsNull /\
  toDraw sampleParseExpressionAt Doctype = Ok JsNull /\
  load sampleParseExpressionAt sampleParse sampleTagNames
    [Element "p" [] [Comment "note"]]
  = Ok [ImportDeclaration [elSpecifier] "overture/dom";
        handlers_root
          [CallExpression (Identifier "el")
             [Literal (VStr "p"); ObjectExpression [];
              ArrayExpression [JsNull]]]].
Proof. repeat split; reflexivity. Qed.

(** C9 at a class list and an id. *)
Lemma attributes_joined_then_split_witness :
  parseProperties sampleParseExpressionAt
    [("className", VList ["a"; "b{x}"]); ("id", VStr "main")]
  = Ok [("className",
         CallExpression
           (MemberExpression
              (ArrayExpression [Literal (VStr "a b"); Identifier "x"])
              (Identifier "join"))
           [Literal (VStr "")]);
        ("id", Literal (VStr "main"))] /\
  (exists segments,
      handleExpressions sampleParseExpressionAt
        (joinClassName "className" (VList ["a"; "b{x}"]))
      = Ok (JsArray segments) /\
      ("className",
       CallExpression
         (MemberExpression (ArrayExpression segments) (Identifier "join"))
         [Literal (VStr "")])
      ∈ [("className",
          CallExpression
            (MemberExpression
               (ArrayExpression [Literal (VStr "a b"); Identifier "x"])
               (Identifier "join"))
            [Literal (VStr "")]);
         ("id", Literal (VStr "main"))]).
Proof.
  split; [reflexivity|].
  assert (Hnd : NoDup (map fst [("className", VList ["a"; "b{x}"]);
                                ("id", VStr "main")])).
  { simpl. apply NoDup_cons. split; [|apply NoDup_singleton].
    intros H. apply list_elem_of_singleton in H. discriminate. }
  destruct (attributes_joined_then_split sampleParseExpressionAt
              [("className", VList ["a"; "b{x}"]); ("id", VStr "main")]
              _ Hnd eq_refl) as (_ & Hall & _).
  destruct (Hall "className" (VList ["a"; "b{x}"]) (list_elem_of_here _ _))
    as [_ [[Hnone _]|Hsegments]].
  - discriminate Hnone.
  - exact Hsegments.
Defined.

(** The attribute rel="{}" is an array with the one token "{}": the
    scanner compares whole tokens with the braces, finds no span, and
    the compilation returns a module in which the value is a literal. *)
Lemma rel_empty_braces_stay_literal :
  sampleParseExpressionAt (VStr "") = None /\
  findExpression (VList ["{}"]) = None /\
  load sampleParseExpressionAt sampleParse sampleTagNames
    [Element "a" [("rel", VList ["{}"])] []]
  = Ok [ImportDeclaration [elSpecifier] "overture/dom";
        handlers_root
          [CallExpression (Identifier "el")
             [Literal (VStr "a");
              ObjectExpression [("rel", Literal (VList ["{}"]))];
              ArrayExpression []]]] /\
  (forall parseExpressionAt parse htmlTagNames,
      load parseExpressionAt parse htmlTagNames
        [Element "a" [("rel", VList ["{}"])] []]
      = Ok [ImportDeclaration [elSpecifier] "overture/dom";
            handlers_root
              [CallExpression (Identifier "el")
                 [Literal (VStr "a");
                  ObjectExpression [("rel", Literal (VList ["{}"]))];
                  ArrayExpression []]]]).
Proof.
  split; [reflexivity|]. split; [reflexivity|]. split; [reflexivity|].
  intros parseExpressionAt parse htmlTagNames.
  assert (Hc : classify htmlTagNames (collectImports (addElImport [])) "a"
               = None)
    by (unfold classify; destruct (standardTags htmlTagNames "a");
        reflexivity).
  unfold load.
  change (extractScripts parse [Element "a" [("rel", VList ["{}"])] []] [])
    with (Ok ([Element "a" [("rel", VList ["{}"])] []],
              @nil estree)).
  cbn [bind fst snd visit map]. rewrite Hc. reflexivity.
Qed.

(** C10 at the text "a{}b". *)
Lemma empty_braces_abort_compilation_witness :
  sampleParseExpressionAt (VStr "") = None /\
  findExpression (VStr "a{}b") = Some (1, 2)%nat /\
  toDraw sampleParseExpressionAt (Text "a{}b") = Err SyntaxError /\
  load sampleParseExpressionAt sampleParse sampleTagNames
    [Element "p" [] [Text "a{}b"]] = Err SyntaxError.
Proof.
  split; [reflexivity|]. split; [reflexivity|].
  destruct (empty_braces_abort_compilation
              sampleParseExpressionAt sampleParse sampleTagNames
              "a{}b" 1 eq_refl eq_refl) as (_ & Htext & _ & _).
  split; [exact Htext | reflexivity].
Defined.


(** * Further properties *)

(** ** The scanner finds the first span and nothing after it *)

Section ScanComplete.
Context {A : Type}.
Variable isOpen isClose : A -> bool.
Hypothesis open_not_close : forall c, isOpen c = true -> isClose c = false.

Local Abbreviation depth := (depth isOpen isClose).
Local Abbreviation scan := (scan isOpen isClose).
Local Abbreviation returnsToZero := (returnsToZero isOpen isClose).
Local Abbreviation neverBelow := (neverBelow isOpen isClose).

Lemma close_not_open (c : A) : isClose c = true -> isOpen c = false.
Proof.
  intros Hc. destruct (isOpen c) eqn:Ho; [|reflexivity].
  apply open_not_close in Ho. congruence.
Qed.

(** Items at which no closer returns to depth 0 are read through. *)
Lemma scan_skip (l1 l2 : list A) : forall (pos : nat) (d : Z) (start : nat),
  returnsToZero l1 d = false ->
  exists start',
    scan (l1 ++ l2) pos d start
    = scan l2 (pos + length l1) (d + depth l1)%Z start'.
Proof.
  induction l1 as [|x l1 IH]; intros pos d start H.
  - exists start. simpl. now rewrite Nat.add_0_r, Z.add_0_r.
  - simpl in H. apply orb_false_iff in H as [Hx Hrest].
    simpl. rewrite <- Nat.add_succ_comm.
    destruct (isOpen x) eqn:Ho.
    + rewrite (open_not_close _ Ho) in *.
      replace (d + 1 - 0)%Z with (d + 1)%Z in Hrest by lia.
      destruct (IH (S pos) (d + 1)%Z
                  (if true && (d =? 0)%Z then pos else start) Hrest)
        as [start' ->].
      exists start'. f_equal; lia.
    + rewrite andb_false_l. destruct (isClose x) eqn:Hc.
      * replace (d + 0 - 1)%Z with (d - 1)%Z in * by lia.
        simpl in Hx. rewrite Hx.
        destruct (IH (S pos) (d - 1)%Z start Hrest) as [start' ->].
        exists start'. f_equal; lia.
      * replace (d + 0 - 0)%Z with d in Hrest by lia.
        destruct (IH (S pos) d start Hrest) as [start' ->].
        exists start'. f_equal; lia.
Qed.

(** Inside a span, between depth 1 and the closer that ends it, the loop
    neither returns nor moves [start]. *)
Lemma scan_inside (l1 l2 : list A) : forall (pos : nat) (d : Z) (start : nat),
  (1 <= d)%Z -> neverBelow l1 (d - 1) = true ->
  scan (l1 ++ l2) pos d start
  = scan l2 (pos + length l1) (d + depth l1)%Z start.
Proof.
  induction l1 as [|x l1 IH]; intros pos d start Hd H.
  - simpl. now rewrite Nat.add_0_r, Z.add_0_r.
  - simpl in H. apply andb_true_iff in H as [Hx Hrest].
    apply Z.leb_le in Hx.
    simpl. rewrite <- Nat.add_succ_comm.
    destruct (isOpen x) eqn:Ho.
    + rewrite (open_not_close _ Ho) in *.
      replace (d =? 0)%Z with false by (symmetry; apply Z.eqb_neq; lia).
      simpl. rewrite IH.
      * f_equal; lia.
      * lia.
      * now replace (d + 1 - 1)%Z with (d - 1 + 1 - 0)%Z by lia.
    + rewrite andb_false_l. destruct (isClose x) eqn:Hc.
      * replace (d - 1 =? 0)%Z with false by (symmetry; apply Z.eqb_neq; lia).
        rewrite IH.
        -- f_equal; lia.
        -- lia.
        -- now replace (d - 1 - 1)%Z with (d - 1 + 0 - 1)%Z by lia.
      * rewrite IH.
        -- f_equal; lia.
        -- lia.
        -- now replace (d - 1)%Z with (d - 1 + 0 - 0)%Z at 1 by lia.
Qed.

Lemma scan_complete (pre inner suf : list A) (o c : A) :
  isOpen o = true -> isClose c = true ->
  returnsToZero pre 0 = false -> depth pre = 0%Z ->
  neverBelow inner 0 = true -> depth inner = 0%Z ->
  scan (pre ++ o :: inner ++ c :: suf) 0 0%Z 0
  = Some (length pre, (length pre + 1 + length inner)%nat).
Proof.
  intros Ho Hc Hpre Hdpre Hin Hdin.
  destruct (scan_skip pre (o :: inner ++ c :: suf) 0 0%Z 0 Hpre)
    as [start' ->].
  rewrite Hdpre. simpl.
  rewrite Ho, (open_not_close _ Ho). simpl.
  rewrite scan_inside by (simpl; auto; lia).
  rewrite Hdin. simpl.
  rewrite Hc, (close_not_open _ Hc). simpl.
  f_equal. f_equal; lia.
Qed.

Lemma brace_free_no_return (l : list A) :
  forallb (fun c => negb (isOpen c || isClose c)) l = true ->
  depth l = 0%Z /\ forall d, returnsToZero l d = false.
Proof.
  induction l as [|x l IH]; simpl; [auto|].
  intros H. apply andb_true_iff in H as [Hx Hl].
  apply negb_true_iff, orb_false_iff in Hx as [Ho Hc].
  destruct (IH Hl) as [Hd Hr]. rewrite Ho, Hc. split; [lia|].
  intros d. simpl. apply Hr.
Qed.

(** The items at the two ends of a span. *)
Lemma span_ends (pre inner suf : list A) (o c : A) :
  let l := pre ++ o :: inner ++ c :: suf in
  let start := length pre in
  let end_ := (length pre + 1 + length inner)%nat in
  (start < end_)%nat /\ (end_ < length l)%nat /\
  take (S start - start) (drop start l) = [o] /\
  take (S end_ - end_) (drop end_ l) = [c].
Proof.
  intros l start end_. subst l start end_.
  repeat split.
  - lia.
  - rewrite !length_app. simpl. rewrite !length_app. simpl. lia.
  - rewrite drop_app_length.
    replace (S (length pre) - length pre)%nat with 1%nat by lia. reflexivity.
  - replace (pre ++ o :: inner ++ c :: suf)
      with ((pre ++ o :: inner) ++ c :: suf)
      by (rewrite <- app_assoc; reflexivity).
    replace (length pre + 1 + length inner)%nat
      with (length (pre ++ o :: inner))
      by (rewrite length_app; simpl; lia).
    rewrite drop_app_length.
    replace (S (length (pre ++ o :: inner)) - length (pre ++ o :: inner))%nat
      with 1%nat by lia.
    reflexivity.
Qed.
End ScanComplete.

Section SplitterMore.
Variable parseExpressionAt : jsValue -> option estree.

Local Abbreviation handleExpressions := (handleExpressions parseExpressionAt).
Local Abbreviation acornExpression := (acornExpression parseExpressionAt).

(** X1. Whatever follows it, the first pair of matching braces is the
    span: for a prefix without braces and a balanced text between the
    braces, the scanner returns the positions of these two braces, and
    the splitter gives the prefix, the parsed text and, as one literal,
    all of the suffix, further braces included. *)
Theorem first_span_is_found_whatever_follows (prefix inner suffix : string) :
  braceFree prefix = true -> balancedString inner = true ->
  let s := prefix +:+ "{" +:+ inner +:+ "}" +:+ suffix in
  findExpression (VStr s)
  = Some (String.length prefix,
          (String.length prefix + 1 + String.length inner)%nat) /\
  handleExpressions (VStr s) =
    (let* expression := acornExpression (VStr inner) in
     Ok (JsArray (literalPart prefix ++ [expression] ++ literalPart suffix))).
Proof.
  intros Hpre Hin s.
  apply andb_true_iff in Hin as [Hnb Hd]. apply Z.eqb_eq in Hd.
  destruct (brace_free_no_return openChar closeChar _ Hpre) as [Hdp Hrp].
  assert (Hs : chars s
               = chars prefix ++ "{"%char :: chars inner
                   ++ "}"%char :: chars suffix).
  { subst s. rewrite !chars_append. reflexivity. }
  assert (Hfind : findExpression (VStr s)
                  = Some (String.length prefix,
                          (String.length prefix + 1 + String.length inner)%nat)).
  { simpl. rewrite Hs, <- !chars_length.
    apply (scan_complete _ _ openChar_closeChar); auto. }
  split; [exact Hfind|].
  unfold handleExpressions. rewrite Hfind.
  destruct (slices_of_span (chars prefix) (chars inner) (chars suffix)
              "{"%char "}"%char) as (Hp & Hi & Hsf & Hlt).
  rewrite <- Hs in Hp, Hi, Hsf, Hlt.
  simpl slice. unfold sliceString. simpl jsLength.
  rewrite <- (chars_length prefix), <- (chars_length inner),
    <- (chars_length s).
  rewrite Hp, Hi, Hsf, Hlt, !string_of_chars.
  destruct (acornExpression (VStr inner)) as [x|err]; simpl; [|reflexivity].
  destruct prefix, suffix; reflexivity.
Qed.
End SplitterMore.

Lemma first_span_is_found_whatever_follows_witness :
  handleExpressions sampleParseExpressionAt (VStr "a{x}b{1+1}c")
  = Ok (JsArray [Literal (VStr "a"); Identifier "x"; Literal (VStr "b{1+1}c")]).
Proof.
  apply (first_span_is_found_whatever_follows sampleParseExpressionAt
           "a" "x" "b{1+1}c"); reflexivity.
Defined.

(** X2. The positions the scanner returns, on a string or on an array of
    tokens, are in range and in order, and the items there are the two
    braces: start < end < length, with "{" at start and "}" at end. *)
Theorem findExpression_in_range (value : jsValue) (start end_ : nat) :
  findExpression value = Some (start, end_) ->
  (start < end_)%nat /\ (end_ < jsLength value)%nat /\
  slice value start (S start)
  = match value with VList _ => VList ["{"] | _ => VStr "{" end /\
  slice value end_ (S end_)
  = match value with VList _ => VList ["}"] | _ => VStr "}" end.
Proof.
  destruct value as [s|n|b|tokens]; simpl; try discriminate.
  - intros H.
    apply (scan_found _ _ openChar_closeChar) in H
      as (pre & o & inner & c & suf & Hs & Ho & Hc & -> & -> & _).
    apply Ascii.eqb_eq in Ho. apply Ascii.eqb_eq in Hc. subst o c.
    destruct (span_ends pre inner suf "{"%char "}"%char)
      as (Hlt & Hlen & Hopen & Hclose).
    rewrite <- Hs in Hlen, Hopen, Hclose. unfold sliceString.
    rewrite Hopen, Hclose, <- chars_length. auto.
  - intros H.
    apply (scan_found _ _ openToken_closeToken) in H
      as (pre & o & inner & c & suf & -> & Ho & Hc & -> & -> & _).
    apply String.eqb_eq in Ho. apply String.eqb_eq in Hc. subst o c.
    destruct (span_ends pre inner suf "{" "}")
      as (Hlt & Hlen & Hopen & Hclose).
    rewrite Hopen, Hclose. auto.
Qed.

Lemma findExpression_in_range_witness :
  (1 < 3)%nat /\ (3 < jsLength (VList ["a"; "{"; "x"; "}"; "b"]))%nat /\
  slice (VList ["a"; "{"; "x"; "}"; "b"]) 1 2 = VList ["{"] /\
  slice (VList ["a"; "{"; "x"; "}"; "b"]) 3 4 = VList ["}"].
Proof.
  apply (findExpression_in_range (VList ["a"; "{"; "x"; "}"; "b"]) 1 3).
  reflexivity.
Defined.

(** ** The pipeline of load *)

Section Pipeline.
Variable parseExpressionAt : jsValue -> option estree.
Variable parse : option string -> jsValue -> option (list estree).
Variable htmlTagNames : list string.

Local Abbreviation toDraw := (toDraw parseExpressionAt).
Local Abbreviation flatMapToDraw := (flatMapToDraw parseExpressionAt).
Local Abbreviation visit := (visit htmlTagNames).
Local Abbreviation load := (load parseExpressionAt parse htmlTagNames).
Local Abbreviation extractScripts := (extractScripts parse).
Local Abbreviation parseScripts := (parseScripts parse).
Local Abbreviation parseAll := (parseAll parse).

Lemma parseAll_app (inputs1 inputs2 : list (option string * jsValue)) :
  parseAll (inputs1 ++ inputs2) =
  match parseAll inputs1 with
  | Some statements => option_map (app statements) (parseAll inputs2)
  | None => None
  end.
Proof.
  induction inputs1 as [|[input sourceType] rest IH]; simpl.
  - now destruct (parseAll inputs2).
  - destruct (parse input sourceType) as [st|]; [|reflexivity].
    rewrite IH. destruct (parseAll rest) as [st1|]; simpl; [|reflexivity].
    destruct (parseAll inputs2) as [st2|]; simpl; [|reflexivity].
    now rewrite app_assoc.
Qed.

Lemma parseScripts_parseAll sourceType (scripts : list node) : forall body,
  parseScripts sourceType scripts body =
  match parseAll (map (fun script => (valueOf script, sourceType)) scripts) with
  | Some statements => Ok (body ++ statements)
  | None => Err SyntaxError
  end.
Proof.
  induction scripts as [|script rest IH]; intros body; simpl.
  - now rewrite app_nil_r.
  - destruct (parse (valueOf script) sourceType) as [st|]; [|reflexivity].
    rewrite IH. destruct (parseAll _) as [st'|]; simpl; [|reflexivity].
    now rewrite app_assoc.
Qed.

Lemma extractScripts_parseAll (children : list node) : forall body,
  extractScripts children body =
  match parseAll (scriptInputs children) with
  | Some statements =>
      Ok (filter (fun c => isScript c = false) children, body ++ statements)
  | None => Err SyntaxError
  end.
Proof.
  induction children as [|element rest IH]; intros body.
  - simpl. now rewrite app_nil_r.
  - cbn [scriptInputs]. simpl extractScripts.
    rewrite parseAll_app.
    destruct (isScript element) eqn:E.
    + rewrite filter_cons_False by (simpl; congruence).
      rewrite parseScripts_parseAll. fold (sourceTypeOf element).
      destruct (parseAll (map _ (childrenOf element))) as [st|]; simpl;
        [|reflexivity].
      rewrite IH. destruct (parseAll (scriptInputs rest)) as [st'|]; simpl;
        [|reflexivity].
      now rewrite app_assoc.
    + rewrite filter_cons_True by (simpl; congruence).
      simpl. rewrite IH.
      destruct (parseAll (scriptInputs rest)) as [st'|]; reflexivity.
Qed.
End Pipeline.

(** ** The table of imports *)

Lemma registerSpecifier_name imports (s : specifier) :
  registerSpecifier imports s = registerName imports (localName s).
Proof. reflexivity. Qed.

Lemma fold_registerSpecifier (specifiers : list specifier) : forall imports,
  fold_left registerSpecifier specifiers imports
  = fold_left registerName (map localName specifiers) imports.
Proof.
  induction specifiers as [|s rest IH]; intros imports; simpl; [reflexivity|].
  apply IH.
Qed.

Lemma fold_registerStatement (body : list estree) : forall imports,
  fold_left registerStatement body imports
  = fold_left registerName (importedNames body) imports.
Proof.
  induction body as [|n rest IH]; intros imports; [reflexivity|].
  destruct n; simpl; try apply IH.
  rewrite fold_left_app, <- fold_registerSpecifier. apply IH.
Qed.

Lemma fold_registerName_lookup (names : list string) (key : string) :
  forall imports : gmap string string,
  fold_left registerName names imports !! key
  = match last (List.filter (registersAs key) names) with
    | Some name => Some name
    | None => imports !! key
    end.
Proof.
  induction names as [|x rest IH]; intros imports; simpl; [reflexivity|].
  rewrite IH. unfold registerName, registersAs at 2.
  destruct (startsUpper x) eqn:Hup; simpl.
  - destruct (String.eqb_spec (toLowerCase x) key) as [<-|Hne].
    + rewrite last_cons, lookup_insert_eq.
      now destruct (last (List.filter _ rest)).
    + rewrite lookup_insert_ne by exact Hne. reflexivity.
  - reflexivity.
Qed.

(** X5. The table answers with the last writer: under a key it holds the
    last, in the order of the module, of the imported local names that
    begin with a capital A-Z and whose lowercase form is the key, and it
    holds nothing under a key that no such name has. *)
Theorem collectImports_last_writer_wins (body : list estree) (key : string) :
  collectImports body !! key
  = last (List.filter (registersAs key) (importedNames body)).
Proof.
  unfold collectImports.
  rewrite fold_registerStatement, fold_registerName_lookup, lookup_empty.
  now destruct (last _).
Qed.

Lemma isUpper_lowerChar (c : ascii) : isUpper (lowerChar c) = false.
Proof.
  destruct c as [[] [] [] [] [] [] [] []]; reflexivity.
Qed.

Lemma toLowerCase_idempotent (name : string) :
  toLowerCase (toLowerCase name) = toLowerCase name.
Proof.
  induction name as [|c rest IH]; simpl; [reflexivity|].
  rewrite IH. f_equal. unfold lowerChar at 1. now rewrite isUpper_lowerChar.
Qed.

Lemma collectImports_key_lowercase (body : list estree) (key name : string) :
  collectImports body !! key = Some name -> toLowerCase key = key.
Proof.
  intros H. destruct (collectImports_inv body key name H) as [<- _].
  apply toLowerCase_idempotent.
Qed.

(** X6. No key of the table holds a capital A-Z, so a tag name that does
    is never found there, whatever is imported: the classifier leaves
    such an element an element. *)
Theorem capitalised_tag_is_never_a_view (htmlTagNames : list string)
  (body : list estree) (tagName : string) properties (children : list node) :
  toLowerCase tagName <> tagName ->
  collectImports body !! tagName = None /\
  visit htmlTagNames (collectImports body)
    (Element tagName properties children)
  = Element tagName properties
      (map (visit htmlTagNames (collectImports body)) children).
Proof.
  intros Hcap.
  assert (Hnone : collectImports body !! tagName = None).
  { destruct (collectImports body !! tagName) as [name|] eqn:E; [|reflexivity].
    exfalso. apply Hcap. eapply collectImports_key_lowercase; eauto. }
  split; [exact Hnone|].
  simpl. unfold classify. rewrite Hnone.
  now destruct (standardTags htmlTagNames tagName).
Qed.

Lemma capitalised_tag_is_never_a_view_witness :
  visit sampleTagNames
    (collectImports
       [ImportDeclaration [ImportDefaultSpecifier "MyView"] "./MyView.js"])
    (Element "myView" [] [])
  = Element "myView" [] [].
Proof.
  apply (capitalised_tag_is_never_a_view sampleTagNames
           [ImportDeclaration [ImportDefaultSpecifier "MyView"] "./MyView.js"]
           "myView" [] []).
  discriminate.
Defined.

(** ** The { el } import and the table *)

Lemma registerStatement_el_added imports specifiers source :
  registerStatement imports
    (ImportDeclaration
       (if existsb isElImport specifiers then specifiers
        else specifiers ++ [elSpecifier]) source)
  = registerStatement imports (ImportDeclaration specifiers source).
Proof.
  destruct (existsb isElImport specifiers); [reflexivity|].
  simpl. now rewrite fold_left_app.
Qed.

(** X4. The import the step adds, or the specifier it adds, is [el], a
    name without a capital: the table of imported classes made from the
    module is the one made from the statements of the script blocks. *)
Theorem collectImports_ignores_el_import (body : list estree) :
  collectImports (addElImport body) = collectImports body.
Proof.
  unfold collectImports.
  destruct (Nat.eq_dec (importsFrom "overture/dom" body) 0) as [Hz|Hnz].
  - unfold addElImport. now rewrite findOvertureDomImport_None.
  - destruct (first_overture_dom_import body Hnz)
      as (before & specifiers & after & -> & Hb).
    unfold addElImport. rewrite findOvertureDomImport_first by assumption.
    rewrite !fold_left_app. cbn [fold_left].
    now rewrite registerStatement_el_added.
Qed.

(** X12. Running the step again changes nothing: once the module imports
    [el] through its first import from 'overture/dom', no specifier and
    no statement is added. *)
Theorem addElImport_idempotent (body : list estree) :
  addElImport (addElImport body) = addElImport body.
Proof.
  destruct (Nat.eq_dec (importsFrom "overture/dom" body) 0) as [Hz|Hnz].
  - assert (E : addElImport body
                = ImportDeclaration [elSpecifier] "overture/dom" :: body)
      by (unfold addElImport; now rewrite findOvertureDomImport_None).
    rewrite E. reflexivity.
  - destruct (first_overture_dom_import body Hnz)
      as (before & specifiers & after & -> & Hb).
    assert (E : forall specifiers',
      addElImport
        (before ++ ImportDeclaration specifiers' "overture/dom" :: after)
      = before ++
        ImportDeclaration
          (if existsb isElImport specifiers' then specifiers'
           else specifiers' ++ [elSpecifier]) "overture/dom" :: after)
      by (intros specifiers'; unfold addElImport;
          now rewrite findOvertureDomImport_first).
    rewrite (E specifiers), E.
    destruct (existsb isElImport specifiers) eqn:Hel.
    + now rewrite Hel.
    + rewrite existsb_app. simpl. now rewrite orb_true_r.
Qed.

(** ** The classifier without imported classes *)

Lemma classify_empty (htmlTagNames : list string) (imports : gmap string string)
  (tagName : string) :
  imports = ∅ -> classify htmlTagNames imports tagName = None.
Proof.
  intros ->. unfold classify. rewrite lookup_empty.
  now destruct (standardTags htmlTagNames tagName).
Qed.

Lemma visit_empty (htmlTagNames : list string) (n : node) :
  visit htmlTagNames ∅ n = n.
Proof.
  induction n as [cs IH|t p cs IH|t p cs IH|v|v|] using node_ind';
    simpl; try reflexivity.
  - f_equal. rewrite <- (map_id cs) at 2. now apply map_ext_Forall.
  - rewrite (classify_empty htmlTagNames ∅ t eq_refl).
    f_equal. rewrite <- (map_id cs) at 2. now apply map_ext_Forall.
  - f_equal. rewrite <- (map_id cs) at 2. now apply map_ext_Forall.
Qed.

Lemma fold_registerName_lowercase (names : list string) :
  forallb (fun name => negb (startsUpper name)) names = true ->
  forall imports, fold_left registerName names imports = imports.
Proof.
  induction names as [|x rest IH]; simpl; [reflexivity|].
  intros H imports. apply andb_true_iff in H as [Hx Hrest].
  apply negb_true_iff in Hx. unfold registerName at 2. rewrite Hx.
  now apply IH.
Qed.

(** X7. When no imported local name begins with a capital A-Z the table
    is empty and the classifier returns the tree as it got it: nothing
    becomes a view. *)
Theorem visit_without_capitalised_imports (htmlTagNames : list string)
  (body : list estree) (n : node) :
  forallb (fun name => negb (startsUpper name)) (importedNames body) = true ->
  collectImports body = ∅ /\
  visit htmlTagNames (collectImports body) n = n.
Proof.
  intros H.
  assert (E : collectImports body = ∅).
  { unfold collectImports. rewrite fold_registerStatement.
    now apply fold_registerName_lowercase. }
  split; [exact E|]. rewrite E. apply visit_empty.
Qed.

Lemma visit_without_capitalised_imports_witness :
  visit sampleTagNames
    (collectImports
       [ImportDeclaration
          [ImportSpecifier (IdentifierName "el") "el";
           ImportSpecifier (IdentifierName "Foo") "foo"]
          "overture/dom"])
    (Element "foo" [] [Text "x"])
  = Element "foo" [] [Text "x"].
Proof.
  apply (visit_without_capitalised_imports sampleTagNames
           [ImportDeclaration
              [ImportSpecifier (IdentifierName "el") "el";
               ImportSpecifier (IdentifierName "Foo") "foo"]
              "overture/dom"]
           (Element "foo" [] [Text "x"])).
  reflexivity.
Defined.

(** ** The synthesizer and the whole compilation *)

Section Synthesis.
Variable parseExpressionAt : jsValue -> option estree.
Variable parse : option string -> jsValue -> option (list estree).
Variable htmlTagNames : list string.

Local Abbreviation handleExpressions := (handleExpressions parseExpressionAt).
Local Abbreviation lowerProperty := (lowerProperty parseExpressionAt).
Local Abbreviation reduceProperties := (reduceProperties parseExpressionAt).
Local Abbreviation parseProperties := (parseProperties parseExpressionAt).
Local Abbreviation handlers_element := (handlers_element parseExpressionAt).
Local Abbreviation handlers_view := (handlers_view parseExpressionAt).
Local Abbreviation toDraw := (toDraw parseExpressionAt).
Local Abbreviation flatMapToDraw := (flatMapToDraw parseExpressionAt).
Local Abbreviation visit := (visit htmlTagNames).
Local Abbreviation load := (load parseExpressionAt parse htmlTagNames).
Local Abbreviation parseAll := (parseAll parse).

(** X3. The compilation is one pass in a fixed order. The texts of the
    top-level script blocks are parsed first, in document order, each
    with the source type of its block ('script' without a [type]); a
    rejected text ends the compilation with the syntax error, whatever
    the rest of the document holds. Otherwise the module is their
    statements end to end, with the import of [el] ensured, followed by
    one last statement, the exported draw function, which returns the
    lowered top-level children other than the script blocks, classified
    with the table made from these statements. *)
Theorem load_pipeline (children : list node) :
  load children =
  match parseAll (scriptInputs children) with
  | None => Err SyntaxError
  | Some statements =>
      let body := addElImport statements in
      let* drawn :=
        flatMapToDraw
          (map (visit (collectImports body))
             (filter (fun c => isScript c = false) children)) in
      Ok (body ++ [handlers_root drawn])
  end.
Proof.
  unfold load. rewrite extractScripts_parseAll.
  destruct (parseAll (scriptInputs children)) as [statements|]; [|reflexivity].
  cbn [bind fst snd app]. cbv zeta.
  change (visit ?i (Root ?cs)) with (Root (map (visit i) cs)).
  rewrite toDraw_Root.
  destruct (flatMapToDraw _) as [drawn|e]; reflexivity.
Qed.

(** X9. A child that is a text node holding exactly one line feed leaves
    no trace: the children lower as if it were not there, under an
    element as under the root. *)
Theorem empty_line_is_dropped (before after : list node) :
  flatMapToDraw (before ++ Text newline :: after)
  = flatMapToDraw (before ++ after) /\
  (forall tagName properties,
      toDraw (Element tagName properties (before ++ Text newline :: after))
      = toDraw (Element tagName properties (before ++ after))) /\
  toDraw (Root (before ++ Text newline :: after))
  = toDraw (Root (before ++ after)).
Proof.
  assert (H : flatMapToDraw (before ++ Text newline :: after)
              = flatMapToDraw (before ++ after)).
  { rewrite !flatMapToDraw_app. reflexivity. }
  split; [exact H|]. split.
  - intros tagName properties. now rewrite !toDraw_Element, H.
  - now rewrite !toDraw_Root, H.
Qed.

(** X13. Children are lowered from left to right and the first exception
    is the one raised: if the elder siblings of a kept child lower well
    and the child raises [e], lowering the children raises [e], and so
    does lowering their parent, whatever the younger siblings are. *)
Theorem first_failing_child_decides (before after : list node) (n : node)
  (drawn : list estree) (e : exn) :
  flatMapToDraw before = Ok drawn ->
  notEmptyLine n = true ->
  toDraw n = Err e ->
  flatMapToDraw (before ++ n :: after) = Err e /\
  toDraw (Root (before ++ n :: after)) = Err e /\
  (forall tagName properties,
      toDraw (Element tagName properties (before ++ n :: after)) = Err e /\
      toDraw (View tagName properties (before ++ n :: after)) = Err e).
Proof.
  intros Hbefore Hkeep Hn.
  assert (H : flatMapToDraw (before ++ n :: after) = Err e).
  { rewrite flatMapToDraw_app, Hbefore. simpl. now rewrite Hkeep, Hn. }
  split; [exact H|]. split.
  - now rewrite toDraw_Root, H.
  - intros tagName properties.
    now rewrite toDraw_Element, toDraw_View, H.
Qed.

(** *** The nested-script error is raised for a script element only *)

Lemma flatMapToDraw_Error_child (children : list node) (message : string) :
  flatMapToDraw children = Err (Error message) ->
  exists child,
    child ∈ children /\ notEmptyLine child = true /\
    toDraw child = Err (Error message).
Proof.
  induction children as [|c cs IH]; simpl; [discriminate|].
  destruct (notEmptyLine c) eqn:Hkeep.
  - destruct (toDraw c) as [d|e] eqn:Hc; simpl.
    + destruct (flatMapToDraw cs) as [ds|e]; simpl; [discriminate|].
      intros [= ->]. destruct (IH eq_refl) as (child & Hin & Hk & Hchild).
      exists child. split; [now apply elem_of_cons; right | auto].
    + intros [= ->]. exists c. split; [now apply elem_of_cons; left | auto].
  - intros H. destruct (IH H) as (child & Hin & Hk & Hchild).
    exists child. split; [now apply elem_of_cons; right | auto].
Qed.

Lemma toDraw_Error_script (n : node) : forall message,
  toDraw n = Err (Error message) ->
  exists properties children,
    lowered (Element "script" properties children) n.
Proof.
  induction n as [cs IH|t p cs IH|t p cs IH|v|v|] using node_ind';
    intros message.
  - rewrite toDraw_Root.
    destruct (flatMapToDraw cs) as [d|e] eqn:E; simpl; [discriminate|].
    intros [= ->].
    destruct (flatMapToDraw_Error_child _ _ E) as (c & Hin & Hk & Hc).
    rewrite Forall_forall in IH.
    destruct (IH c Hin _ Hc) as (p' & cs' & Hlow).
    exists p', cs'. now apply lowered_below with (child := c).
  - rewrite toDraw_Element.
    destruct (flatMapToDraw cs) as [d|e] eqn:E; simpl.
    + unfold handlers_element.
      destruct (String.eqb_spec t "script") as [->|_].
      * intros _. exists p, cs. constructor.
      * destruct (parseProperties p) as [x|e] eqn:Ep; simpl; [discriminate|].
        intros [= ->]. apply reduceProperties_error in Ep. discriminate.
    + intros [= ->].
      destruct (flatMapToDraw_Error_child _ _ E) as (c & Hin & Hk & Hc).
      rewrite Forall_forall in IH.
      destruct (IH c Hin _ Hc) as (p' & cs' & Hlow).
      exists p', cs'. now apply lowered_below with (child := c).
  - rewrite toDraw_View.
    destruct (flatMapToDraw cs) as [d|e] eqn:E; simpl.
    + unfold handlers_view.
      destruct (parseProperties p) as [x|e] eqn:Ep; simpl; [discriminate|].
      intros [= ->]. apply reduceProperties_error in Ep. discriminate.
    + intros [= ->].
      destruct (flatMapToDraw_Error_child _ _ E) as (c & Hin & Hk & Hc).
      rewrite Forall_forall in IH.
      destruct (IH c Hin _ Hc) as (p' & cs' & Hlow).
      exists p', cs'. now apply lowered_below with (child := c).
  - simpl. unfold handlers_text. intros H.
    apply handleExpressions_error in H. discriminate.
  - discriminate.
  - discriminate.
Qed.

(** What is lowered in the classified tree comes from the tree. *)
Lemma lowered_unvisit imports (n : node) : forall target',
  lowered target' (visit imports n) ->
  exists target, lowered target n /\ visit imports target = target'.
Proof.
  induction n as [cs IH|t p cs IH|t p cs IH|v|v|] using node_ind';
    intros target' H; inversion H as [|parent child Hin Hkeep Hlow]; subst;
    try (eexists; split; [apply lowered_here | reflexivity]);
    rewrite childrenOf_visit in Hin; simpl in Hin;
    try (inversion Hin; fail);
    apply list_elem_of_In, in_map_iff in Hin as (c & <- & Hc);
    apply list_elem_of_In in Hc;
    rewrite Forall_forall in IH;
    destruct (IH c Hc _ Hlow) as (target & Ht & <-);
    rewrite notEmptyLine_visit in Hkeep;
    exists target; (split; [|reflexivity]);
    now apply lowered_below with (child := c).
Qed.

(** X11. The nested-script error means what it says: when a compilation
    ends with an [Error], its message is the nested-script one and a
    script element stands where the synthesizer gets to it, below a
    top-level child that is not a script block. *)
Theorem nested_script_error_is_sound (children : list node) (message : string) :
  load children = Err (Error message) ->
  message = nestedScriptMessage /\
  exists properties scriptChildren,
    lowered (Element "script" properties scriptChildren)
      (Root (filter (fun c => isScript c = false) children)).
Proof.
  intros H. split.
  - destruct (load_error _ _ _ _ _ H) as [[= ->]|]; [reflexivity|discriminate].
  - unfold load in H.
    destruct (extractScripts parse children []) as [[kept body]|e] eqn:Ex;
      cbn [bind fst snd] in H.
    + apply extractScripts_kept in Ex. subst kept. cbv zeta in H.
      destruct (toDraw _) as [d|e] eqn:Hd; cbn [bind] in H; [discriminate|].
      injection H as ->.
      apply toDraw_Error_script in Hd as (p' & cs' & Hlow).
      apply lowered_unvisit in Hlow as (target & Ht & Hv).
      destruct target as [cs|t p cs|t p cs|v|v|]; simpl in Hv;
        try discriminate.
      destruct (classify htmlTagNames _ t); [discriminate|].
      injection Hv as -> _ _. eauto.
    + injection H as ->. apply extractScripts_error in Ex. discriminate.
Qed.

(** *** Documents without embedded code *)

Lemma lowerProperty_plain key (value : jsValue) :
  findExpression (joinClassName key value) = None ->
  lowerProperty key value = Ok (Literal (joinClassName key value)).
Proof.
  intros H. unfold lowerProperty, handleExpressions. now rewrite H.
Qed.

Lemma reduceProperties_plain (entries : list (string * jsValue)) :
  forall acc,
  NoDup (map fst acc ++ map fst entries) ->
  forallb (fun entry =>
             match findExpression (joinClassName (fst entry) (snd entry)) with
             | None => true
             | Some _ => false
             end) entries = true ->
  reduceProperties entries acc
  = Ok (acc ++ map (fun entry =>
                      (fst entry,
                       Literal (joinClassName (fst entry) (snd entry))))
                 entries).
Proof.
  induction entries as [|[k v] rest IH]; intros acc Hnd Hall; simpl.
  - now rewrite app_nil_r.
  - simpl in Hall. apply andb_true_iff in Hall as [Hkv Hrest].
    destruct (findExpression (joinClassName k v)) eqn:E; [discriminate|].
    rewrite (lowerProperty_plain _ _ E). simpl.
    assert (Hfresh : k ∉ map fst acc).
    { apply NoDup_app in Hnd as (_ & Hdis & _). intros Hin.
      apply (Hdis k Hin). simpl. apply elem_of_cons. now left. }
    rewrite objSet_fresh by assumption.
    rewrite IH; [now rewrite <- app_assoc | | exact Hrest].
    rewrite map_app. simpl. now rewrite <- app_assoc.
Qed.

Lemma parseProperties_plain (properties : list (string * jsValue)) :
  plainProperties properties = true ->
  parseProperties properties
  = Ok (map (fun entry =>
               (fst entry, Literal (joinClassName (fst entry) (snd entry))))
          properties).
Proof.
  unfold plainProperties. intros H. apply andb_true_iff in H as [Hall Hnd].
  apply bool_decide_eq_true in Hnd.
  unfold parseProperties. now rewrite reduceProperties_plain.
Qed.

Lemma plain_kept (n : node) :
  plain n = true -> isScript n = false /\ flat (static n) = [static n].
Proof.
  destruct n as [cs|t p cs|t p cs|v|v|]; simpl; try discriminate.
  - intros H. apply andb_true_iff in H as [H _].
    apply andb_true_iff in H as [H _]. apply negb_true_iff in H.
    unfold isScript. simpl. auto.
  - auto.
Qed.

Lemma flatMapToDraw_plain (children : list node) :
  Forall (fun n => plain n = true -> toDraw n = Ok (static n)) children ->
  forallb plain children = true ->
  flatMapToDraw children
  = Ok (flat_map (fun child => if notEmptyLine child then [static child]
                               else []) children).
Proof.
  induction 1 as [|c cs Hc _ IH]; simpl; [reflexivity|].
  intros H. apply andb_true_iff in H as [Hpc Hpcs].
  rewrite (IH Hpcs). destruct (notEmptyLine c); [|reflexivity].
  rewrite (Hc Hpc). simpl.
  now destruct (plain_kept c Hpc) as [_ ->].
Qed.

Lemma toDraw_plain (n : node) : plain n = true -> toDraw n = Ok (static n).
Proof.
  induction n as [cs IH|t p cs IH|t p cs IH|v|v|] using node_ind';
    cbn [plain]; try discriminate.
  - intros H. apply andb_true_iff in H as [H Hcs].
    apply andb_true_iff in H as [Ht Hp]. apply negb_true_iff in Ht.
    rewrite toDraw_Element, (flatMapToDraw_plain cs IH Hcs). simpl.
    unfold handlers_element. rewrite Ht, (parseProperties_plain p Hp).
    reflexivity.
  - intros H. destruct (findExpression (VStr v)) eqn:E; [discriminate|].
    change (toDraw (Text v)) with (handleExpressions (VStr v)).
    unfold handleExpressions. now rewrite E.
Qed.

Lemma plain_no_scripts (children : list node) :
  forallb plain children = true ->
  scriptInputs children = [] /\
  filter (fun c => isScript c = false) children = children.
Proof.
  induction children as [|c cs IH]; simpl; [auto|].
  intros H. apply andb_true_iff in H as [Hc Hcs].
  destruct (IH Hcs) as [Hin Hfil]. destruct (plain_kept c Hc) as [Hs _].
  rewrite Hs, Hin. split; [reflexivity|].
  rewrite filter_cons_True by exact Hs. now rewrite Hfil.
Qed.

(** X8. A document made of elements and text only, with no script
    element, no span in a text or an attribute and no attribute name
    twice, always compiles, and to the tree it shows: whatever the
    parsers are, every child lowers to its static expression (an [el]
    call with the attributes as literals and the children in order, the
    empty lines left out), and the module is the import of [el] followed
    by the draw function that returns these expressions. *)
Theorem plain_document_compiles_as_it_stands (children : list node) :
  forallb plain children = true ->
  Forall (fun n => toDraw n = Ok (static n)) children /\
  load children
  = Ok [ImportDeclaration [elSpecifier] "overture/dom";
        static (Root children)].
Proof.
  intros H. split.
  - apply Forall_forall. intros n Hin. apply toDraw_plain.
    rewrite forallb_forall in H. apply H. now apply list_elem_of_In.
  - destruct (plain_no_scripts children H) as [Hin Hfil].
    unfold load. rewrite extractScripts_parseAll, Hin, Hfil.
    simpl parseAll. cbn [bind fst snd app]. cbv zeta.
    change (addElImport []) with [ImportDeclaration [elSpecifier] "overture/dom"].
    change (collectImports [ImportDeclaration [elSpecifier] "overture/dom"])
      with (∅ : gmap string string).
    rewrite visit_empty, toDraw_Root.
    rewrite flatMapToDraw_plain; [reflexivity | | exact H].
    apply Forall_forall. intros n _. apply toDraw_plain.
Qed.

(** *** Attribute values that are not strings *)

(** X10. Only a class list is joined. An array under any other name is
    scanned token by token, so that it has a span only if some token is
    exactly a brace: without such a token it lowers to the literal of
    the array, even when a token holds braces, and the parser is not
    called. A number or a boolean lowers to its literal under every
    name, className included. *)
Theorem array_attribute_is_scanned_by_token :
  (forall key n, lowerProperty key (VNum n) = Ok (Literal (VNum n))) /\
  (forall key b, lowerProperty key (VBool b) = Ok (Literal (VBool b))) /\
  (forall key tokens,
      key <> "className" ->
      forallb (fun t => negb (openToken t || closeToken t)) tokens = true ->
      findExpression (VList tokens) = None /\
      lowerProperty key (VList tokens) = Ok (Literal (VList tokens))).
Proof.
  split; [reflexivity|]. split; [reflexivity|].
  intros key tokens Hkey Htokens.
  assert (Hfind : findExpression (VList tokens) = None).
  { simpl. apply (scan_returnsToZero _ _ openToken_closeToken).
    now apply (brace_free_no_return openToken closeToken). }
  split; [exact Hfind|].
  unfold lowerProperty, joinClassName.
  destruct (String.eqb_spec key "className") as [->|_]; [contradiction|].
  unfold handleExpressions. now rewrite Hfind.
Qed.
End Synthesis.

Lemma first_failing_child_decides_witness :
  toDraw sampleParseExpressionAt
    (Element "p" [] [Text "a"; Text "{}"; Element "script" [] []])
  = Err SyntaxError.
Proof.
  apply (first_failing_child_decides sampleParseExpressionAt
           [Text "a"] [Element "script" [] []] (Text "{}")
           [Literal (VStr "a")] SyntaxError);
    reflexivity.
Defined.

Lemma nested_script_error_is_sound_witness :
  exists properties scriptChildren,
    lowered (Element "script" properties scriptChildren)
      (Root (filter (fun c => isScript c = false)
               [Element "p" [] [Element "script" [] [Text "x"]]])).
Proof.
  apply (nested_script_error_is_sound
           sampleParseExpressionAt sampleParse sampleTagNames
           [Element "p" [] [Element "script" [] [Text "x"]]]
           nestedScriptMessage).
  reflexivity.
Defined.

Lemma plain_document_compiles_as_it_stands_witness :
  load sampleParseExpressionAt sampleParse sampleTagNames
    [Element "p" [("className", VList ["a"; "b"]); ("hidden", VBool true)]
       [Text "hello"; Text newline; Element "br" [] []]]
  = Ok [ImportDeclaration [elSpecifier] "overture/dom";
        handlers_root
          [CallExpression (Identifier "el")
             [Literal (VStr "p");
              ObjectExpression
                [("className", Literal (VStr "a b"));
                 ("hidden", Literal (VBool true))];
              ArrayExpression
                [Literal (VStr "hello");
                 CallExpression (Identifier "el")
                   [Literal (VStr "br"); ObjectExpression [];
                    ArrayExpression []]]]]].
Proof.
  apply (plain_document_compiles_as_it_stands
           sampleParseExpressionAt sampleParse sampleTagNames
           [Element "p"
              [("className", VList ["a"; "b"]); ("hidden", VBool true)]
              [Text "hello"; Text newline; Element "br" [] []]]).
  vm_compute. reflexivity.
Defined.

Lemma array_attribute_is_scanned_by_token_witness :
  lowerProperty sampleParseExpressionAt "rel" (VList ["{x}"; "noopener"])
  = Ok (Literal (VList ["{x}"; "noopener"])) /\
  lowerProperty sampleParseExpressionAt "className" (VNum 0.5%float)
  = Ok (Literal (VNum 0.5%float)).
Proof.
  destruct (array_attribute_is_scanned_by_token sampleParseExpressionAt)
    as (Hnum & _ & Harray).
  split; [|apply Hnum].
  apply (Harray "rel" ["{x}"; "noopener"]); [discriminate | reflexivity].
Defined.
